(** * Context managers of the notebook "Python 上下文管理器"

    A shallow embedding of the two demonstrations of
    [Tips/2016-03-23-With-Context-Manager.ipynb]: the class [Refs] and the
    generator [ref] wrapped by [contextlib.contextmanager], both guarding
    the shared dictionary [_G], together with the [with] statement and the
    [try ... finally ...] statement that run them. *)

From Stdlib Require Import ZArith String List Lia.
From stdpp Require Import base decidable option list gmap strings fin_maps pretty.

Local Open Scope Z_scope.
Local Open Scope string_scope.

(** ** Python objects of the notebook *)

(** Exceptions.  [Exception] stands for whatever a [with] body raises on
    its own; the others are raised by the interpreter or by [contextlib]. *)
Inductive exn : Type :=
| KeyError (key : string)
| TypeError
| NameError (var : string)
| StopIteration
| RuntimeError (msg : string)
| Exception (msg : string).

Global Instance exn_eq_dec : EqDecision exn.
Proof. solve_decision. Defined.

(** The values the shared dictionary holds: integers of arbitrary size
    and strings. *)
Inductive value : Type :=
| VInt (z : Z)
| VStr (s : string).

Global Instance value_eq_dec : EqDecision value.
Proof. solve_decision. Defined.

(** The positional arguments [__exit__] receives: [None], an exception
    class, an exception instance, its traceback, or any other value. *)
Inductive pyarg : Type :=
| ArgNone
| ArgType (e : exn)
| ArgExc (e : exn)
| ArgTb (e : exn)
| ArgVal (v : value).

(** A statement or call either completes or raises. *)
Inductive outcome (A : Type) : Type :=
| Normal (a : A)
| Raise (e : exn).
Arguments Normal {A} a.
Arguments Raise {A} e.

(** The frame of a generator object created by [ref()]: not started,
    suspended at its [yield] holding the local [counter], or finished. *)
Inductive frame : Type :=
| Created
| Suspended (counter : value)
| Finished.

(** The yielded object: a reference to the dictionary [_G] itself. *)
Inductive dict_ref : Type := G_ref.

(** ** The interpreter state

    [_G] is the one dictionary object every handle refers to: [Refs.__init__]
    stores a reference to it ([self._G = _G]) and [ref] yields it, so all
    reads and writes below go to this single field.  [gens] holds the frames
    of the generator objects, addressed by position, and [stdout] the lines
    printed so far. *)
Record world : Type := mkWorld {
  _G : gmap string value;
  gens : list frame;
  stdout : list string
}.

Definition set_G (f : gmap string value → gmap string value) (w : world) : world :=
  {| _G := f (_G w); gens := gens w; stdout := stdout w |}.

Definition set_gens (f : list frame → list frame) (w : world) : world :=
  {| _G := _G w; gens := f (gens w); stdout := stdout w |}.

Definition set_stdout (f : list string → list string) (w : world) : world :=
  {| _G := _G w; gens := gens w; stdout := f (stdout w) |}.

(** ** Computations: state passing with exceptions *)

Definition M (A : Type) : Type := world → outcome A * world.

Definition ret {A} (a : A) : M A := λ w, (Normal a, w).

Definition raise {A} (e : exn) : M A := λ w, (Raise e, w).

Definition bind {A B} (c : M A) (k : A → M B) : M B :=
  λ w, match c w with
       | (Normal a, w1) => k a w1
       | (Raise e, w1) => (Raise e, w1)
       end.

Definition lift {A} (o : outcome A) : M A := λ w, (o, w).

Declare Scope py_scope.
Delimit Scope py_scope with py.
Notation "'do' x <- c ; k" := (bind c (λ x, k))
  (at level 10, x name, c at level 100, k at level 200) : py_scope.
Notation "c ;;; k" := (bind c (λ _, k))
  (at level 100, k at level 200, right associativity) : py_scope.
Local Open Scope py_scope.

(** ** Dictionary and arithmetic primitives *)

(** [_G[k]] *)
Definition dict_getitem (k : string) : M value :=
  λ w, match _G w !! k with
       | Some v => (Normal v, w)
       | None => (Raise (KeyError k), w)
       end.

(** [_G[k] = v] *)
Definition dict_setitem (k : string) (v : value) : M unit :=
  λ w, (Normal tt, set_G (insert k v) w).

(** [a + b]: integer addition, string concatenation, [TypeError] otherwise. *)
Definition py_add (a b : value) : outcome value :=
  match a, b with
  | VInt x, VInt y => Normal (VInt (x + y))
  | VStr x, VStr y => Normal (VStr (x ++ y))
  | _, _ => Raise TypeError
  end.

(** [a - b]: integer subtraction, [TypeError] otherwise. *)
Definition py_sub (a b : value) : outcome value :=
  match a, b with
  | VInt x, VInt y => Normal (VInt (x - y))
  | _, _ => Raise TypeError
  end.

(** [_G[k] += n]: read, add, store. *)
Definition dict_iadd (k : string) (n : value) : M unit :=
  do c <- dict_getitem k;
  do v <- lift (py_add c n);
  dict_setitem k v.

(** [_G[k] -= n] *)
Definition dict_isub (k : string) (n : value) : M unit :=
  do c <- dict_getitem k;
  do v <- lift (py_sub c n);
  dict_setitem k v.

(** [print(s)] *)
Definition print (s : string) : M unit :=
  λ w, (Normal tt, set_stdout (λ out, (out ++ [s])%list) w).

(** [str(v)] as [format] renders it. *)
Definition str_value (v : value) : string :=
  match v with
  | VInt z => pretty z
  | VStr s => s
  end.

(** ** The class [Refs] *)

Record Refs : Type := mkRefs {
  name : option string;
  init : value
}.

Definition Refs_init (name : option string) : M Refs :=
  do c <- dict_getitem "counter";
  ret {| name := name; init := c |}.

Definition Refs_enter (self : Refs) : M Refs := ret self.

Definition Refs_exit (self : Refs) (args : list pyarg) : M bool :=
  dict_setitem "counter" (init self) ;;;
  ret false.

Definition Refs_acc (self : Refs) (n : value) : M unit :=
  dict_iadd "counter" n.

Definition Refs_dec (self : Refs) (n : value) : M unit :=
  dict_isub "counter" n.

Definition str_name (o : option string) : string :=
  match o with
  | Some s => s
  | None => "None"
  end.

(** ["COUNTER #{name}: {counter}".format( **self._G, name=self.name)]: a
    key ["name"] in [_G] would pass the keyword [name] twice, a
    [TypeError]; a missing counter is a [KeyError] of [format]. *)
Definition Refs_str (self : Refs) : M string :=
  λ w, match _G w !! "name" with
       | Some _ => (Raise TypeError, w)
       | None =>
           (do c <- dict_getitem "counter";
            ret ("COUNTER #" ++ str_name (name self) ++ ": " ++ str_value c)) w
       end.

(** ** The generator [ref] *)

Definition set_frame (g : nat) (f : frame) : world → world :=
  set_gens (λ fs, <[g := f]> fs).

(** Calling [ref()] creates a generator object; none of its body runs. *)
Definition ref_new : M nat :=
  λ w, (Normal (length (gens w)), set_gens (λ fs, (fs ++ [Created])%list) w).

(** [next(g)]: from the start, [counter = _G["counter"]] then [yield _G];
    from the [yield], [_G["counter"] = counter] and the function returns,
    which raises [StopIteration].  A finished generator, and an identifier
    no generator was created for, raise [StopIteration] as well. *)
Definition ref_next (g : nat) : M dict_ref :=
  λ w, match gens w !! g with
       | Some Created =>
           match dict_getitem "counter" w with
           | (Normal c, w1) => (Normal G_ref, set_frame g (Suspended c) w1)
           | (Raise e, w1) => (Raise e, set_frame g Finished w1)
           end
       | Some (Suspended c) =>
           match dict_setitem "counter" c w with
           | (_, w1) => (Raise StopIteration, set_frame g Finished w1)
           end
       | Some Finished | None => (Raise StopIteration, w)
       end.

(** [g.throw(e)]: the exception is raised where the generator is
    suspended.  [ref] has no handler around its [yield], so the exception
    leaves the generator and the assignment after the [yield] never runs. *)
Definition ref_throw (g : nat) (e : exn) : M dict_ref :=
  λ w, match gens w !! g with
       | Some Created | Some (Suspended _) => (Raise e, set_frame g Finished w)
       | Some Finished | None => (Raise e, w)
       end.

(** ** The context manager protocol *)

Record context_manager (A : Type) : Type := mkCM {
  cm_enter : M A;
  cm_exit : list pyarg → M bool
}.
Arguments mkCM {A} _ _.
Arguments cm_enter {A} _.
Arguments cm_exit {A} _ _.

Definition no_exc : list pyarg := [ArgNone; ArgNone; ArgNone].

Definition exc_info (e : exn) : list pyarg := [ArgType e; ArgExc e; ArgTb e].

(** [with EXPR as VAR: BODY].  The manager is evaluated, [__enter__] is
    called, the body runs, and [__exit__] is called with the exception
    details, or with three [None]s when the body completed.  After an
    exception a true result of [__exit__] swallows it, a false one
    re-raises it. *)
Definition with_stmt {A} (expr : M (context_manager A)) (body : A → M unit) : M unit :=
  λ w, match expr w with
       | (Raise e, w1) => (Raise e, w1)
       | (Normal mgr, w1) =>
           match cm_enter mgr w1 with
           | (Raise e, w2) => (Raise e, w2)
           | (Normal var, w2) =>
               match body var w2 with
               | (Normal _, w3) =>
                   match cm_exit mgr no_exc w3 with
                   | (Normal _, w4) => (Normal tt, w4)
                   | (Raise e', w4) => (Raise e', w4)
                   end
               | (Raise e, w3) =>
                   match cm_exit mgr (exc_info e) w3 with
                   | (Normal true, w4) => (Normal tt, w4)
                   | (Normal false, w4) => (Raise e, w4)
                   | (Raise e', w4) => (Raise e', w4)
                   end
               end
           end
       end.

(** A [Refs] instance used as a context manager. *)
Definition Refs_cm (self : Refs) : context_manager Refs :=
  {| cm_enter := Refs_enter self; cm_exit := Refs_exit self |}.

(** The expression [Refs(name)] in the header of a [with]. *)
Definition Refs_new (name : option string) : M (context_manager Refs) :=
  do r <- Refs_init name;
  ret (Refs_cm r).

(** [contextlib._GeneratorContextManager.__enter__] *)
Definition gcm_enter (g : nat) : M dict_ref :=
  λ w, match ref_next g w with
       | (Raise StopIteration, w1) => (Raise (RuntimeError "generator didn't yield"), w1)
       | r => r
       end.

(** [contextlib._GeneratorContextManager.__exit__(type, value, traceback)] *)
Definition gcm_exit (g : nat) (args : list pyarg) : M bool :=
  match args with
  | [ArgNone; _; _] =>
      λ w, match ref_next g w with
           | (Raise StopIteration, w1) => (Normal false, w1)
           | (Raise e, w1) => (Raise e, w1)
           | (Normal _, w1) => (Raise (RuntimeError "generator didn't stop"), w1)
           end
  | [ArgType e; _; _] =>
      λ w, match ref_throw g e w with
           | (Normal _, w1) =>
               (Raise (RuntimeError "generator didn't stop after throw()"), w1)
           | (Raise StopIteration, w1) => (Normal (bool_decide (e ≠ StopIteration)), w1)
           | (Raise e', w1) =>
               if decide (e' = e) then (Normal false, w1) else (Raise e', w1)
           end
  | _ => raise TypeError
  end.

(** The expression [ref()] in the header of a [with], [ref] being
    decorated with [contextmanager]. *)
Definition ref_cm : M (context_manager dict_ref) :=
  do g <- ref_new;
  ret {| cm_enter := gcm_enter g; cm_exit := gcm_exit g |}.

(** ** [try ... finally ...] and the hand-written form of a scope *)

(** [try: BLOCK finally: FINAL].  [FINAL] always runs; the outcome of
    [BLOCK] stands unless [FINAL] raises itself. *)
Definition try_finally {A} (block : M A) (final : M unit) : M A :=
  λ w, match block w with
       | (o, w1) =>
           match final w1 with
           | (Normal _, w2) => (o, w2)
           | (Raise e, w2) => (Raise e, w2)
           end
       end.

(** The second cell written for any manager, the acquisition inside the
    [try] as in the notebook:
<<
    try:
        f = EXPR
        var = f.__enter__()
        BODY
    finally:
        f.__exit__(None, None, None)
>>
    When [EXPR] raises, [f] is unbound and the [finally] clause raises
    [NameError]. *)
Definition try_finally_form {A} (expr : M (context_manager A)) (body : A → M unit) : M unit :=
  λ w, match expr w with
       | (Raise e, w1) => try_finally (raise e) (raise (NameError "f")) w1
       | (Normal f, w1) =>
           try_finally (do var <- cm_enter f; body var)
                       (cm_exit f no_exc ;;; ret tt) w1
       end.

(** ** Bodies made of counter mutations *)

(** One statement of a body: increment, decrement, plain assignment of
    the counter, or [raise]. *)
Inductive mutation : Type :=
| Acc (n : value)
| Dec (n : value)
| Store (v : value)
| Throw (e : exn).

(** Inside [with Refs(...) as r]: [r.acc(n)], [r.dec(n)],
    [r._G["counter"] = v], [raise e]. *)
Definition Refs_stmt (r : Refs) (m : mutation) : M unit :=
  match m with
  | Acc n => Refs_acc r n
  | Dec n => Refs_dec r n
  | Store v => dict_setitem "counter" v
  | Throw e => raise e
  end.

(** Inside [with ref() as r]: [r["counter"] += n], [r["counter"] -= n],
    [r["counter"] = v], [raise e]. *)
Definition ref_stmt (r : dict_ref) (m : mutation) : M unit :=
  match m with
  | Acc n => dict_iadd "counter" n
  | Dec n => dict_isub "counter" n
  | Store v => dict_setitem "counter" v
  | Throw e => raise e
  end.

Fixpoint block {A} (stmt : A → mutation → M unit) (ms : list mutation) (r : A) : M unit :=
  match ms with
  | [] => ret tt
  | m :: ms' => stmt r m ;;; block stmt ms' r
  end.

Definition Refs_body : list mutation → Refs → M unit := block Refs_stmt.
Definition ref_body : list mutation → dict_ref → M unit := block ref_stmt.

(** ** The [with] statements of the two demonstration cells *)

Definition initial_G : gmap string value :=
  {[ "counter" := VInt 99; "user" := VStr "admin" ]}.

Definition initial_world : world :=
  {| _G := initial_G; gens := []; stdout := [] |}.

(** [for _ in range(n): BODY] *)
Fixpoint for_range (n : nat) (body : M unit) : M unit :=
  match n with
  | O => ret tt
  | S n' => body ;;; for_range n' body
  end.

(** The [with] statement of the third cell, lines 129 to 134.  It reads
    whatever [_G] holds when it starts; the assignment to [_G] at the top
    of the cell and the [print(_G)] after the statement are not part of
    it. *)
Definition cell3_with : M unit :=
  with_stmt (Refs_new (Some "ref1")) (λ ref1,
  with_stmt (Refs_new (Some "ref2")) (λ ref2,
    for_range 3 (
      Refs_dec ref1 (VInt 1) ;;;
      (do s <- Refs_str ref1; print s) ;;;
      Refs_acc ref2 (VInt 2) ;;;
      (do s <- Refs_str ref2; print s)))).

(** The [with] statement of the fourth cell, lines 177 to 182, likewise
    without the assignment to [_G] before it and the two [print]s after
    it. *)
Definition cell4_with : M unit :=
  with_stmt ref_cm (λ r1,
  with_stmt ref_cm (λ r2,
    for_range 3 (
      ref_stmt r1 (Dec (VInt 1)) ;;;
      (do c <- dict_getitem "counter"; print ("COUNTER #ref1: " ++ str_value c)) ;;;
      ref_stmt r2 (Acc (VInt 2)) ;;;
      (do c <- dict_getitem "counter"; print ("COUNTER #ref2: " ++ str_value c))))).

(** The six lines the notebook shows for either statement when it starts
    with the counter at 99. *)
Definition demo_output : list string :=
  [ "COUNTER #ref1: 98"; "COUNTER #ref2: 100";
    "COUNTER #ref1: 99"; "COUNTER #ref2: 101";
    "COUNTER #ref1: 100"; "COUNTER #ref2: 102" ].

(** [with Refs(n1) as r1, Refs(n2) as r2, ...: BODY], the nesting Python
    gives to several managers in one header. *)
Fixpoint with_Refs (names : list (option string)) (body : list Refs → M unit) : M unit :=
  match names with
  | [] => body []
  | nm :: names' =>
      with_stmt (Refs_new nm) (λ r, with_Refs names' (λ rs, body (r :: rs)))
  end.

(** ** Arbitrary use of the demonstration objects

    A session holds the interpreter state and the [Refs] handles created
    so far.  An operation that raises keeps the effects it had up to the
    exception, as a statement typed at the prompt does, and the session
    goes on. *)
Inductive op : Type :=
| OpInit (nm : option string)
| OpEnter (i : nat)
| OpExit (i : nat) (args : list pyarg)
| OpAcc (i : nat) (n : value)
| OpDec (i : nat) (n : value)
| OpRef
| OpRefEnter (g : nat)
| OpRefExit (g : nat) (args : list pyarg).

Record session : Type := mkSession {
  now : world;
  refs : list Refs
}.

Definition on_handle {A} (i : nat) (method : Refs → M A) (s : session) : session :=
  match refs s !! i with
  | Some r => {| now := snd (method r (now s)); refs := refs s |}
  | None => s
  end.

Definition exec_op (o : op) (s : session) : session :=
  match o with
  | OpInit nm =>
      match Refs_init nm (now s) with
      | (Normal r, w) => {| now := w; refs := refs s ++ [r] |}
      | (Raise _, w) => {| now := w; refs := refs s |}
      end
  | OpEnter i => on_handle i Refs_enter s
  | OpExit i args => on_handle i (λ r, Refs_exit r args) s
  | OpAcc i n => on_handle i (λ r, Refs_acc r n) s
  | OpDec i n => on_handle i (λ r, Refs_dec r n) s
  | OpRef => {| now := snd (ref_new (now s)); refs := refs s |}
  | OpRefEnter g => {| now := snd (gcm_enter g (now s)); refs := refs s |}
  | OpRefExit g args => {| now := snd (gcm_exit g args (now s)); refs := refs s |}
  end.

Definition run (ops : list op) (s : session) : session :=
  fold_left (λ s o, exec_op o s) ops s.

Definition initial_session : session :=
  {| now := initial_world; refs := [] |}.

(** The shape of the shared dictionary: the two keys, an integer counter
    and a string owner. *)
Definition is_int (v : value) : bool :=
  match v with VInt _ => true | VStr _ => false end.

Definition is_str (v : value) : bool :=
  match v with VStr _ => true | VInt _ => false end.

Definition G_shape (d : gmap string value) : Prop :=
  dom d = ({[ "counter"; "user" ]} : gset string) ∧
  (∃ z, d !! "counter" = Some (VInt z)) ∧
  (∃ u, d !! "user" = Some (VStr u)).

Definition frame_ok (f : frame) : Prop :=
  match f with
  | Suspended c => is_int c = true
  | Created | Finished => True
  end.

Definition session_ok (s : session) : Prop :=
  G_shape (_G (now s)) ∧
  Forall (λ r, is_int (init r) = true) (refs s) ∧
  Forall frame_ok (gens (now s)).

(** A state of the interpreter in which the dictionary has its shape and
    every suspended generator holds an integer. *)
Definition world_ok (w : world) : Prop :=
  G_shape (_G w) ∧ Forall frame_ok (gens w).

(** The arguments [with] hands to [__exit__] for a given outcome of the body. *)
Definition exit_args (o : outcome unit) : list pyarg :=
  match o with
  | Normal _ => no_exc
  | Raise e => exc_info e
  end.

(** The statement that, once the manager is acquired, the [with] form and
    the [try ... finally ...] form are the same computation for every
    manager and every body. *)
Definition with_equals_try_finally : Prop :=
  ∀ (A : Type) (expr : M (context_manager A)) (body : A → M unit)
    (w w1 w2 : world) (mgr : context_manager A) (var : A),
    expr w = (Normal mgr, w1) →
    cm_enter mgr w1 = (Normal var, w2) →
    with_stmt expr body w = try_finally_form expr body w.

(** The statement that a handle puts back the value the counter has when
    [__enter__] is called, whatever ran between [Refs(...)] and the
    [with]. *)
Definition restores_value_at_enter : Prop :=
  ∀ (nm : option string) (between : M unit) (body : Refs → M unit)
    (w w0 w1 w2 : world) (r : Refs) (o : outcome unit),
    Refs_init nm w = (Normal r, w0) →
    between w0 = (Normal tt, w1) →
    with_stmt (ret (Refs_cm r)) body w1 = (o, w2) →
    _G w2 !! "counter" = _G w1 !! "counter".

(** [w'] differs from [w] at most in the counter entry of [_G]. *)
Definition counter_only (w w' : world) : Prop :=
  _G w' !! "user" = _G w !! "user" ∧
  delete "counter" (_G w') = delete "counter" (_G w).

(** The lines [k] rounds of the demonstration loop print when the counter
    starts at [z]: each round shows the counter after [dec(1)] and after
    the following [acc(2)]. *)
Fixpoint demo_lines (k : nat) (z : Z) : list string :=
  match k with
  | O => []
  | S k' =>
      ("COUNTER #ref1: " ++ pretty (z - 1)) ::
      ("COUNTER #ref2: " ++ pretty (z + 1)) ::
      demo_lines k' (z + 1)
  end.

(** * Properties *)

(** ** The two [with] statements print the lines the notebook shows *)

Example cell3_with_runs :
  fst (cell3_with initial_world) = Normal tt ∧
  stdout (snd (cell3_with initial_world)) = demo_output ∧
  _G (snd (cell3_with initial_world)) = initial_G.
Proof. vm_compute. auto. Qed.

Example cell4_with_runs :
  fst (cell4_with initial_world) = Normal tt ∧
  stdout (snd (cell4_with initial_world)) = demo_output ∧
  _G (snd (cell4_with initial_world)) = initial_G.
Proof. vm_compute. auto. Qed.

(** ** Basic facts about the state *)

Lemma set_G_id (f : gmap string value → gmap string value) (w : world) :
  f (_G w) = _G w → set_G f w = w.
Proof. destruct w as [d fs out]; unfold set_G; simpl; intros ->; reflexivity. Qed.

Lemma insert_counter_twice (v v' : value) (w : world) :
  set_G (insert "counter" v') (set_G (insert "counter" v) w)
  = set_G (insert "counter" v') w.
Proof. unfold set_G; simpl. by rewrite insert_insert_eq. Qed.

(** What the two augmented assignments do, case by case. *)
Lemma dict_iadd_int (k : string) (z n : Z) (w : world) :
  _G w !! k = Some (VInt z) →
  dict_iadd k (VInt n) w = (Normal tt, set_G (insert k (VInt (z + n))) w).
Proof. intros H. unfold dict_iadd, bind, dict_getitem, lift. by rewrite H. Qed.

Lemma dict_isub_int (k : string) (z n : Z) (w : world) :
  _G w !! k = Some (VInt z) →
  dict_isub k (VInt n) w = (Normal tt, set_G (insert k (VInt (z - n))) w).
Proof. intros H. unfold dict_isub, bind, dict_getitem, lift. by rewrite H. Qed.

Lemma dict_iadd_cases (k : string) (n : value) (w : world) :
  (∃ e, dict_iadd k n w = (Raise e, w)) ∨
  (∃ c v, _G w !! k = Some c ∧ py_add c n = Normal v ∧
          dict_iadd k n w = (Normal tt, set_G (insert k v) w)).
Proof.
  unfold dict_iadd, bind, dict_getitem, lift.
  destruct (_G w !! k) as [c|] eqn:Hc; [|left; eauto].
  destruct (py_add c n) as [v|e] eqn:Hv; [right; eauto | left; eauto].
Qed.

Lemma dict_isub_cases (k : string) (n : value) (w : world) :
  (∃ e, dict_isub k n w = (Raise e, w)) ∨
  (∃ c v, _G w !! k = Some c ∧ py_sub c n = Normal v ∧
          dict_isub k n w = (Normal tt, set_G (insert k v) w)).
Proof.
  unfold dict_isub, bind, dict_getitem, lift.
  destruct (_G w !! k) as [c|] eqn:Hc; [|left; eauto].
  destruct (py_sub c n) as [v|e] eqn:Hv; [right; eauto | left; eauto].
Qed.

Lemma py_add_int (c n v : value) :
  is_int c = true → py_add c n = Normal v → is_int v = true.
Proof. destruct c, n; simpl; intros; simplify_eq; done. Qed.

Lemma py_sub_int (c n v : value) :
  py_sub c n = Normal v → is_int v = true.
Proof. destruct c, n; simpl; intros; simplify_eq; done. Qed.

(** ** Only the counter is written *)

Lemma counter_only_refl (w : world) : counter_only w w.
Proof. by split. Qed.

Lemma counter_only_insert (v : value) (w : world) :
  counter_only w (set_G (insert "counter" v) w).
Proof.
  split; simpl.
  - by rewrite lookup_insert_ne.
  - by rewrite delete_insert_eq.
Qed.

Lemma counter_only_gens (f : list frame → list frame) (w w' : world) :
  counter_only w w' → counter_only w (set_gens f w').
Proof. by intros [? ?]. Qed.

Lemma dict_iadd_counter_only (n : value) (w : world) :
  counter_only w (snd (dict_iadd "counter" n w)).
Proof.
  destruct (dict_iadd_cases "counter" n w) as [[e ->]|(c & v & _ & _ & ->)]; simpl.
  - apply counter_only_refl.
  - apply counter_only_insert.
Qed.

Lemma dict_isub_counter_only (n : value) (w : world) :
  counter_only w (snd (dict_isub "counter" n w)).
Proof.
  destruct (dict_isub_cases "counter" n w) as [[e ->]|(c & v & _ & _ & ->)]; simpl.
  - apply counter_only_refl.
  - apply counter_only_insert.
Qed.

Lemma Refs_init_pure (nm : option string) (w : world) :
  snd (Refs_init nm w) = w.
Proof.
  unfold Refs_init, bind, dict_getitem, ret.
  by destruct (_G w !! "counter").
Qed.

Lemma Refs_exit_eq (r : Refs) (args : list pyarg) (w : world) :
  Refs_exit r args w = (Normal false, set_G (insert "counter" (init r)) w).
Proof. reflexivity. Qed.

Lemma ref_next_counter_only (g : nat) (w : world) :
  counter_only w (snd (ref_next g w)).
Proof.
  unfold ref_next, dict_getitem, dict_setitem, set_frame.
  destruct (gens w !! g) as [[|c|]|]; simpl; try apply counter_only_refl.
  - destruct (_G w !! "counter"); simpl;
      apply counter_only_gens, counter_only_refl.
  - apply counter_only_gens, counter_only_insert.
Qed.

Lemma ref_throw_counter_only (g : nat) (e : exn) (w : world) :
  counter_only w (snd (ref_throw g e w)).
Proof.
  unfold ref_throw, set_frame.
  destruct (gens w !! g) as [[|c|]|]; simpl;
    try apply counter_only_gens; apply counter_only_refl.
Qed.

Lemma gcm_enter_snd (g : nat) (w : world) :
  snd (gcm_enter g w) = snd (ref_next g w).
Proof.
  unfold gcm_enter. destruct (ref_next g w) as [[a|e] w1]; [done|].
  by destruct e.
Qed.

Lemma gcm_exit_snd (g : nat) (args : list pyarg) (w : world) :
  snd (gcm_exit g args w) = w ∨
  snd (gcm_exit g args w) = snd (ref_next g w) ∨
  ∃ e, snd (gcm_exit g args w) = snd (ref_throw g e w).
Proof.
  unfold gcm_exit.
  destruct args as [|[| e | | |] [|a2 [|a3 [|a4 args]]]]; try (by left).
  - right; left. destruct (ref_next g w) as [[a|e] w1]; [done|]. by destruct e.
  - right; right. exists e.
    destruct (ref_throw g e w) as [[a|e'] w1]; [done|].
    destruct e'; simpl; try done; by case_decide.
Qed.

(** [C8] No operation of either demonstration writes the owner field:
    [Refs.__init__], [__enter__], [__exit__], [acc], [dec], and the
    generator's capture and restore, reached through [next], [throw] and
    the manager [contextmanager] builds, leave [_G["user"]] and every
    other entry but [_G["counter"]] as they were, for every handle,
    argument and state, whether they return or raise. *)
Theorem owner_field_untouched :
  ∀ (nm : option string) (r : Refs) (n : value) (args : list pyarg)
    (g : nat) (e : exn) (w : world),
    counter_only w (snd (Refs_init nm w)) ∧
    counter_only w (snd (Refs_enter r w)) ∧
    counter_only w (snd (Refs_exit r args w)) ∧
    counter_only w (snd (Refs_acc r n w)) ∧
    counter_only w (snd (Refs_dec r n w)) ∧
    counter_only w (snd (ref_next g w)) ∧
    counter_only w (snd (ref_throw g e w)) ∧
    counter_only w (snd (gcm_enter g w)) ∧
    counter_only w (snd (gcm_exit g args w)).
Proof.
  intros. repeat split_and.
  - rewrite Refs_init_pure. apply counter_only_refl.
  - apply counter_only_refl.
  - rewrite Refs_exit_eq. apply counter_only_insert.
  - apply dict_iadd_counter_only.
  - apply dict_isub_counter_only.
  - apply ref_next_counter_only.
  - apply ref_throw_counter_only.
  - rewrite gcm_enter_snd. apply ref_next_counter_only.
  - destruct (gcm_exit_snd g args w) as [->|[->|[e' ->]]].
    + apply counter_only_refl.
    + apply ref_next_counter_only.
    + apply ref_throw_counter_only.
Qed.

(** ** [acc] and [dec] undo each other *)

Lemma acc_then_dec (r : Refs) (n z : Z) (w : world) :
  _G w !! "counter" = Some (VInt z) →
  (Refs_acc r (VInt n) ;;; Refs_dec r (VInt n)) w = (Normal tt, w).
Proof.
  intros Hc. unfold bind, Refs_acc, Refs_dec.
  rewrite (dict_iadd_int _ z n w Hc).
  rewrite (dict_isub_int _ (z + n) n); [|apply lookup_insert_eq].
  rewrite insert_counter_twice. f_equal. apply set_G_id.
  replace (z + n - n) with z by lia. by apply insert_id.
Qed.

Lemma dec_then_acc (r : Refs) (n z : Z) (w : world) :
  _G w !! "counter" = Some (VInt z) →
  (Refs_dec r (VInt n) ;;; Refs_acc r (VInt n)) w = (Normal tt, w).
Proof.
  intros Hc. unfold bind, Refs_acc, Refs_dec.
  rewrite (dict_isub_int _ z n w Hc).
  rewrite (dict_iadd_int _ (z - n) n); [|apply lookup_insert_eq].
  rewrite insert_counter_twice. f_equal. apply set_G_id.
  replace (z - n + n) with z by lia. by apply insert_id.
Qed.

Lemma acc_not_int (r : Refs) (n : Z) (w : world) :
  (∀ z, _G w !! "counter" ≠ Some (VInt z)) →
  ∃ e, Refs_acc r (VInt n) w = (Raise e, w).
Proof.
  intros Hc. unfold Refs_acc, dict_iadd, bind, dict_getitem, lift.
  destruct (_G w !! "counter") as [[z|s]|]; simpl; eauto.
  by destruct (Hc z).
Qed.

Lemma dec_not_int (r : Refs) (n : Z) (w : world) :
  (∀ z, _G w !! "counter" ≠ Some (VInt z)) →
  ∃ e, Refs_dec r (VInt n) w = (Raise e, w).
Proof.
  intros Hc. unfold Refs_dec, dict_isub, bind, dict_getitem, lift.
  destruct (_G w !! "counter") as [[z|s]|]; simpl; eauto.
  by destruct (Hc z).
Qed.

Lemma counter_int_or_not (w : world) :
  (∃ z, _G w !! "counter" = Some (VInt z)) ∨
  (∀ z, _G w !! "counter" ≠ Some (VInt z)).
Proof. destruct (_G w !! "counter") as [[z|s]|]; eauto; right; congruence. Qed.

(** [C10] [Refs.acc] and [Refs.dec] are exact inverses on the integers:
    for every integer [n] and every state of the shared dictionary,
    [acc(n)] followed by [dec(n)], and [dec(n)] followed by [acc(n)],
    leave the dictionary, and so its counter, exactly as it was.  When
    the counter holds an integer both calls return; when it holds
    something that cannot be added to an integer, or is missing, the
    first call raises before writing anything. *)
Theorem acc_dec_inverse :
  ∀ (r : Refs) (n : Z) (w : world),
    snd ((Refs_acc r (VInt n) ;;; Refs_dec r (VInt n)) w) = w ∧
    snd ((Refs_dec r (VInt n) ;;; Refs_acc r (VInt n)) w) = w ∧
    _G (snd ((Refs_acc r (VInt n) ;;; Refs_dec r (VInt n)) w)) !! "counter"
      = _G w !! "counter" ∧
    _G (snd ((Refs_dec r (VInt n) ;;; Refs_acc r (VInt n)) w)) !! "counter"
      = _G w !! "counter" ∧
    (∀ z, _G w !! "counter" = Some (VInt z) →
          fst ((Refs_acc r (VInt n) ;;; Refs_dec r (VInt n)) w) = Normal tt ∧
          fst ((Refs_dec r (VInt n) ;;; Refs_acc r (VInt n)) w) = Normal tt).
Proof.
  intros r n w.
  assert (snd ((Refs_acc r (VInt n) ;;; Refs_dec r (VInt n)) w) = w ∧
          snd ((Refs_dec r (VInt n) ;;; Refs_acc r (VInt n)) w) = w) as [Ha Hd].
  { destruct (counter_int_or_not w) as [[z Hz]|Hn].
    - by rewrite (acc_then_dec r n z w Hz), (dec_then_acc r n z w Hz).
    - destruct (acc_not_int r n w Hn) as [e1 H1].
      destruct (dec_not_int r n w Hn) as [e2 H2].
      unfold bind. by rewrite H1, H2. }
  rewrite Ha, Hd. split_and!; try done.
  intros z Hz.
  by rewrite (acc_then_dec r n z w Hz), (dec_then_acc r n z w Hz).
Qed.

Lemma acc_dec_inverse_witness :
  _G initial_world !! "counter" = Some (VInt 99) ∧
  fst ((Refs_acc (mkRefs None (VInt 99)) (VInt 5) ;;;
        Refs_dec (mkRefs None (VInt 99)) (VInt 5)) initial_world) = Normal tt.
Proof.
  split; [reflexivity|].
  destruct (acc_dec_inverse (mkRefs None (VInt 99)) 5 initial_world)
    as (_ & _ & _ & _ & H).
  apply (H 99). reflexivity.
Defined.

(** ** The shape of the shared dictionary is invariant *)

Lemma initial_G_shape : G_shape initial_G.
Proof.
  unfold G_shape, initial_G. split_and!.
  - by rewrite dom_insert_L, dom_singleton_L.
  - by exists 99.
  - by exists "admin".
Qed.

Lemma G_shape_insert (d : gmap string value) (v : value) :
  G_shape d → is_int v = true → G_shape (<["counter" := v]> d).
Proof.
  intros (Hdom & _ & Hu) Hv. split_and!.
  - rewrite dom_insert_L, Hdom. set_solver.
  - destruct v as [z|s]; [|done]. exists z. apply lookup_insert_eq.
  - by rewrite lookup_insert_ne.
Qed.

Lemma world_ok_insert (v : value) (w : world) :
  world_ok w → is_int v = true → world_ok (set_G (insert "counter" v) w).
Proof. intros [HG Hf] Hv. split; simpl; [by apply G_shape_insert | done]. Qed.

Lemma world_ok_frame (g : nat) (f : frame) (w : world) :
  world_ok w → frame_ok f → world_ok (set_frame g f w).
Proof. intros [HG Hf] Hok. split; simpl; [done | by apply Forall_insert]. Qed.

Lemma dict_iadd_ok (n : value) (w : world) :
  world_ok w → world_ok (snd (dict_iadd "counter" n w)).
Proof.
  intros Hw.
  destruct (dict_iadd_cases "counter" n w) as [[e ->]|(c & v & Hc & Hv & ->)];
    simpl; [done|].
  apply world_ok_insert; [done|].
  destruct Hw as [(_ & [z Hz] & _) _].
  apply (py_add_int c n); [|done]. by simplify_eq.
Qed.

Lemma dict_isub_ok (n : value) (w : world) :
  world_ok w → world_ok (snd (dict_isub "counter" n w)).
Proof.
  intros Hw.
  destruct (dict_isub_cases "counter" n w) as [[e ->]|(c & v & Hc & Hv & ->)];
    simpl; [done|].
  apply world_ok_insert; [done|]. by apply (py_sub_int c n).
Qed.

Lemma ref_new_ok (w : world) : world_ok w → world_ok (snd (ref_new w)).
Proof.
  intros [HG Hf]. split; simpl; [done|].
  apply Forall_app. split; [done|]. by repeat constructor.
Qed.

Lemma ref_next_ok (g : nat) (w : world) :
  world_ok w → world_ok (snd (ref_next g w)).
Proof.
  intros Hw. unfold ref_next, dict_getitem, dict_setitem.
  destruct (gens w !! g) as [[|c|]|] eqn:Hg; simpl; try done.
  - destruct Hw as [(Hd & [z Hz] & Hu) Hf] eqn:Heq. rewrite Hz. simpl.
    by apply world_ok_frame.
  - assert (frame_ok (Suspended c)) as Hc.
    { destruct Hw as [_ Hf]. by apply (Forall_lookup_1 _ _ _ _ Hf Hg). }
    apply world_ok_frame; [|done]. by apply world_ok_insert.
Qed.

Lemma ref_throw_ok (g : nat) (e : exn) (w : world) :
  world_ok w → world_ok (snd (ref_throw g e w)).
Proof.
  intros Hw. unfold ref_throw.
  destruct (gens w !! g) as [[|c|]|]; simpl; try done;
    by apply world_ok_frame.
Qed.

Lemma exec_op_ok (o : op) (s : session) :
  session_ok s → session_ok (exec_op o s).
Proof.
  intros (HG & Hr & Hf).
  assert (world_ok (now s)) as Hw by done.
  assert (∀ w', world_ok w' → session_ok {| now := w'; refs := refs s |}) as Hkeep.
  { intros w' [? ?]. by split_and!. }
  destruct o as [nm|i|i args|i n|i n| |g|g args]; simpl; unfold on_handle.
  - destruct HG as (Hd & [z Hz] & Hu) eqn:Heq.
    unfold Refs_init, bind, dict_getitem, ret. rewrite Hz.
    split_and!; simpl; try done.
    apply Forall_app. split; [done|]. by repeat constructor.
  - destruct (refs s !! i); by split_and!.
  - destruct (refs s !! i) as [r|] eqn:Hi; [|by split_and!].
    rewrite Refs_exit_eq. apply Hkeep. simpl. apply world_ok_insert; [done|].
    by apply (Forall_lookup_1 _ _ _ _ Hr Hi).
  - destruct (refs s !! i); [|by split_and!].
    by apply Hkeep, dict_iadd_ok.
  - destruct (refs s !! i); [|by split_and!].
    by apply Hkeep, dict_isub_ok.
  - by apply Hkeep, ref_new_ok.
  - rewrite gcm_enter_snd. by apply Hkeep, ref_next_ok.
  - apply Hkeep. destruct (gcm_exit_snd g args (now s)) as [->|[->|[e ->]]];
      [done | by apply ref_next_ok | by apply ref_throw_ok].
Qed.

Lemma run_ok (ops : list op) (s : session) :
  session_ok s → session_ok (run ops s).
Proof.
  revert s. induction ops as [|o ops IH]; intros s Hs; [done|].
  simpl. by apply IH, exec_op_ok.
Qed.

Lemma initial_session_ok : session_ok initial_session.
Proof. split_and!; simpl; [apply initial_G_shape | constructor | constructor]. Qed.

(** [C7] The shared dictionary holds exactly the two fields ["user"] and
    ["counter"], the first a string and the second an integer, and every
    operation of the demonstration keeps it so: after any sequence of
    [Refs(...)], [__enter__], [__exit__], [acc], [dec] (with any argument
    and on any handle created so far) and of the generator manager's
    creation, capture and restore, run from the initial [_G], the key set
    is still these two and the counter still an integer. *)
Theorem shared_mapping_shape_invariant :
  ∀ ops : list op,
    let d := _G (now (run ops initial_session)) in
    dom d = ({[ "counter"; "user" ]} : gset string) ∧
    (∃ z, d !! "counter" = Some (VInt z)) ∧
    (∃ u, d !! "user" = Some (VStr u)).
Proof.
  intros ops. simpl.
  destruct (run_ok ops initial_session initial_session_ok) as [HG _].
  exact HG.
Qed.

(** ** The [with] statement over a [Refs] handle *)

Lemma with_handle_run (expr : M Refs) (body : Refs → M unit)
    (w w1 w3 : world) (r : Refs) (o : outcome unit) :
  expr w = (Normal r, w1) →
  body r w1 = (o, w3) →
  with_stmt (do r <- expr; ret (Refs_cm r)) body w
  = (o, set_G (insert "counter" (init r)) w3).
Proof.
  intros He Hb. unfold with_stmt, bind, ret. rewrite He. simpl.
  unfold Refs_enter, ret. rewrite Hb.
  destruct o as [[]|e]; reflexivity.
Qed.

(** [C2] In every execution of a [with] over a [Refs] handle, built in
    the header or beforehand, [Refs.__exit__] runs on both exit paths:
    the state after the statement is the state the body left, passed
    through [__exit__] (called with three [None]s after a normal
    completion, with the exception details after a raise), so the counter
    holds the handle's remembered value; and the statement ends the way
    the body ended. *)
Theorem Refs_exit_runs_on_every_path :
  ∀ (expr : M Refs) (body : Refs → M unit) (w w1 w3 : world) (r : Refs)
    (o : outcome unit),
    expr w = (Normal r, w1) →
    body r w1 = (o, w3) →
    with_stmt (do r <- expr; ret (Refs_cm r)) body w
      = (o, snd (Refs_exit r (exit_args o) w3)) ∧
    _G (snd (with_stmt (do r <- expr; ret (Refs_cm r)) body w)) !! "counter"
      = Some (init r).
Proof.
  intros expr body w w1 w3 r o He Hb.
  rewrite (with_handle_run expr body w w1 w3 r o He Hb), Refs_exit_eq. simpl.
  split; [done | apply lookup_insert_eq].
Qed.

Lemma Refs_exit_runs_on_every_path_witness :
  with_stmt (do r <- Refs_init (Some "ref1"); ret (Refs_cm r))
            (Refs_body [Dec (VInt 1); Throw (Exception "boom")]) initial_world
  = (Raise (Exception "boom"), initial_world).
Proof.
  destruct (Refs_exit_runs_on_every_path
              (Refs_init (Some "ref1"))
              (Refs_body [Dec (VInt 1); Throw (Exception "boom")])
              initial_world initial_world
              (set_G (insert "counter" (VInt 98)) initial_world)
              (mkRefs (Some "ref1") (VInt 99))
              (Raise (Exception "boom")) eq_refl eq_refl) as [H _].
  rewrite H. reflexivity.
Defined.

(** [C3] When the body of a [with] raises, the result of [__exit__]
    decides: a true result swallows the exception and the statement
    completes, a false result re-raises the very same exception.  In both
    cases the state is the one [__exit__] left. *)
Theorem exit_result_decides :
  ∀ (A : Type) (mgr : context_manager A) (body : A → M unit)
    (w w2 w3 w4 : world) (var : A) (e : exn) (b : bool),
    cm_enter mgr w = (Normal var, w2) →
    body var w2 = (Raise e, w3) →
    cm_exit mgr (exc_info e) w3 = (Normal b, w4) →
    with_stmt (ret mgr) body w = (if b then Normal tt else Raise e, w4).
Proof.
  intros A mgr body w w2 w3 w4 var e b Hen Hb Hex.
  unfold with_stmt, ret. rewrite Hen, Hb, Hex. by destruct b.
Qed.

Lemma exit_result_decides_witness :
  with_stmt (ret (mkCM (ret tt) (λ _, ret true)))
            (λ _, raise (Exception "boom")) initial_world
    = (Normal tt, initial_world) ∧
  with_stmt (ret (Refs_cm (mkRefs None (VInt 99))))
            (λ _, raise (Exception "boom")) initial_world
    = (Raise (Exception "boom"), initial_world).
Proof.
  split.
  - apply (exit_result_decides unit (mkCM (ret tt) (λ _, ret true))
             (λ _, raise (Exception "boom"))
             initial_world initial_world initial_world initial_world
             tt (Exception "boom") true); reflexivity.
  - apply (exit_result_decides Refs (Refs_cm (mkRefs None (VInt 99)))
             (λ _, raise (Exception "boom"))
             initial_world initial_world initial_world initial_world
             (mkRefs None (VInt 99)) (Exception "boom") false); reflexivity.
Defined.

(** ** [Refs.__exit__] never swallows an exception *)

Lemma Refs_new_run (nm : option string) (c : value) (w : world) :
  _G w !! "counter" = Some c →
  Refs_new nm w = (Normal (Refs_cm (mkRefs nm c)), w).
Proof.
  intros Hc. unfold Refs_new, Refs_init, bind, dict_getitem, ret. by rewrite Hc.
Qed.

Lemma with_Refs_new_run (nm : option string) (body : Refs → M unit)
    (c : value) (w w3 : world) (o : outcome unit) :
  _G w !! "counter" = Some c →
  body (mkRefs nm c) w = (o, w3) →
  with_stmt (Refs_new nm) body w = (o, set_G (insert "counter" c) w3).
Proof.
  intros Hc Hb. unfold with_stmt. rewrite (Refs_new_run nm c w Hc). simpl.
  unfold Refs_enter, ret. rewrite Hb.
  destruct o as [[]|e]; reflexivity.
Qed.

Lemma with_Refs_outcome (names : list (option string)) :
  ∀ (body : list Refs → M unit) (c : value) (w : world),
    _G w !! "counter" = Some c →
    fst (with_Refs names body w) = fst (body (map (λ nm, mkRefs nm c) names) w).
Proof.
  induction names as [|nm names IH]; intros body c w Hc; [done|].
  simpl.
  destruct (with_Refs names (λ rs, body (mkRefs nm c :: rs)) w) as [o w3] eqn:Hin.
  rewrite (with_Refs_new_run nm _ c w w3 o Hc Hin). simpl.
  change o with (fst (o, w3)). rewrite <- Hin.
  by rewrite (IH (λ rs, body (mkRefs nm c :: rs)) c w Hc).
Qed.

(** [C9] [Refs.__exit__] returns [False] for every argument list, the
    exception details included, and never raises; so an exception raised
    by the body of a [with] guarded by [Refs] handles only, one handle or
    several in one header, is never swallowed: the statement raises that
    same exception. *)
Theorem Refs_never_suppresses :
  (∀ (r : Refs) (args : list pyarg) (w : world),
     fst (Refs_exit r args w) = Normal false) ∧
  (∀ (r : Refs) (body : Refs → M unit) (w : world) (e : exn),
     fst (body r w) = Raise e →
     fst (with_stmt (ret (Refs_cm r)) body w) = Raise e) ∧
  (∀ (names : list (option string)) (body : list Refs → M unit)
     (w : world) (c : value) (e : exn),
     _G w !! "counter" = Some c →
     fst (body (map (λ nm, mkRefs nm c) names) w) = Raise e →
     fst (with_Refs names body w) = Raise e).
Proof.
  split_and!.
  - done.
  - intros r body w e Hb.
    destruct (body r w) as [o w3] eqn:Hbody. simpl in Hb. subst o.
    change (ret (Refs_cm r)) with (do r' <- ret r; ret (Refs_cm r')).
    by rewrite (with_handle_run (ret r) body w w w3 r (Raise e) eq_refl Hbody).
  - intros names body w c e Hc Hb.
    by rewrite (with_Refs_outcome names body c w Hc).
Qed.

Lemma Refs_never_suppresses_witness :
  fst (with_Refs [Some "ref1"; Some "ref2"]
         (λ rs, match rs with
                | [ref1; ref2] =>
                    Refs_dec ref1 (VInt 1) ;;; Refs_acc ref2 (VInt 2) ;;;
                    raise (Exception "boom")
                | _ => raise (NameError "ref1")
                end)
         initial_world)
  = Raise (Exception "boom").
Proof.
  destruct Refs_never_suppresses as (_ & _ & H).
  apply (H [Some "ref1"; Some "ref2"] _ initial_world (VInt 99) (Exception "boom"));
    reflexivity.
Defined.

(** ** [with] against [try ... finally ...] *)

Lemma with_is_try_finally {A} (expr : M (context_manager A)) (body : A → M unit)
    (w w1 : world) (mgr : context_manager A) :
  expr w = (Normal mgr, w1) →
  (∀ w', ∃ var, cm_enter mgr w' = (Normal var, snd (cm_enter mgr w'))) →
  (∀ args w', cm_exit mgr args w' = cm_exit mgr no_exc w') →
  (∀ w', fst (cm_exit mgr no_exc w') ≠ Normal true) →
  with_stmt expr body w = try_finally_form expr body w.
Proof.
  intros He Hen Hargs Hfalse.
  unfold with_stmt, try_finally_form, try_finally, bind, ret. rewrite He.
  destruct (Hen w1) as [var Hvar]. rewrite Hvar.
  destruct (body var (snd (cm_enter mgr w1))) as [[[]|e] w3].
  - by destruct (cm_exit mgr no_exc w3) as [[b|e'] w4].
  - rewrite Hargs. specialize (Hfalse w3).
    by destruct (cm_exit mgr no_exc w3) as [[[|]|e'] w4].
Qed.

(** For [Refs] in particular: whenever the counter exists, so that
    [Refs(name)] returns, the two forms agree for every body. *)
Corollary with_Refs_is_try_finally :
  ∀ (nm : option string) (body : Refs → M unit) (w : world),
    is_Some (_G w !! "counter") →
    with_stmt (Refs_new nm) body w = try_finally_form (Refs_new nm) body w.
Proof.
  intros nm body w [c Hc].
  apply (with_is_try_finally _ _ w w (Refs_cm (mkRefs nm c))).
  - by apply Refs_new_run.
  - intros w'. by eexists.
  - done.
  - done.
Qed.

(** [C6] does not hold of the [with] form in general: a manager whose
    [__exit__] returns [True] is acquired, its body raises, the [with]
    form swallows the exception and completes, and the
    [try ... finally ...] form raises it. *)
Lemma with_equals_try_finally_fails : ¬ with_equals_try_finally.
Proof.
  intros H.
  specialize (H unit (ret (mkCM (ret tt) (λ _, ret true)))
                (λ _, raise (Exception "boom"))
                initial_world initial_world initial_world
                (mkCM (ret tt) (λ _, ret true)) tt eq_refl eq_refl).
  vm_compute in H. discriminate H.
Qed.

(** [C6] as the code has it: for a manager that has been acquired and
    whose release does the same whatever arguments it is given and never
    returns a true value, as [Refs.__exit__] does, the [with] form and
    the hand-written acquire, attempt, [finally:] release form give the
    same outcome and the same state for every body, whether it completes
    or raises. *)
Theorem with_is_try_finally_for_plain_release :
  ∀ (A : Type) (expr : M (context_manager A)) (body : A → M unit)
    (w w1 w2 : world) (mgr : context_manager A) (var : A),
    expr w = (Normal mgr, w1) →
    cm_enter mgr w1 = (Normal var, w2) →
    (∀ args w', cm_exit mgr args w' = cm_exit mgr no_exc w') →
    (∀ w', fst (cm_exit mgr no_exc w') ≠ Normal true) →
    with_stmt expr body w = try_finally_form expr body w.
Proof.
  intros A expr body w w1 w2 mgr var He Hen Hargs Hfalse.
  unfold with_stmt, try_finally_form, try_finally, bind, ret.
  rewrite He, Hen.
  destruct (body var w2) as [[[]|e] w3].
  - by destruct (cm_exit mgr no_exc w3) as [[b|e'] w4].
  - rewrite Hargs. specialize (Hfalse w3).
    by destruct (cm_exit mgr no_exc w3) as [[[|]|e'] w4].
Qed.

Lemma with_is_try_finally_for_plain_release_witness :
  with_stmt (Refs_new (Some "ref1"))
            (Refs_body [Dec (VInt 1); Throw (Exception "boom")]) initial_world
  = try_finally_form (Refs_new (Some "ref1"))
            (Refs_body [Dec (VInt 1); Throw (Exception "boom")]) initial_world.
Proof.
  apply (with_is_try_finally_for_plain_release Refs
           (Refs_new (Some "ref1"))
           (Refs_body [Dec (VInt 1); Throw (Exception "boom")])
           initial_world initial_world initial_world
           (Refs_cm (mkRefs (Some "ref1") (VInt 99)))
           (mkRefs (Some "ref1") (VInt 99)) eq_refl eq_refl).
  - intros args w'. reflexivity.
  - intros w'. discriminate.
Defined.

(** The generator manager is outside that condition: its release looks
    at its arguments.  On a raising body the [with] form leaves the
    counter as the body left it, while the hand-written form, which
    releases with three [None]s, puts it back. *)
Example forms_differ_on_ref :
  _G (snd (with_stmt ref_cm (ref_body [Dec (VInt 1); Throw (Exception "boom")])
             initial_world)) !! "counter" = Some (VInt 98) ∧
  _G (snd (try_finally_form ref_cm
             (ref_body [Dec (VInt 1); Throw (Exception "boom")])
             initial_world)) !! "counter" = Some (VInt 99).
Proof. by vm_compute. Qed.

(** Without a counter the acquisition itself raises, and only then the
    two forms part: [with] reports the [KeyError], the hand-written form
    reaches its [finally:] with [f] unbound. *)
Example forms_when_acquisition_fails :
  let w := {| _G := {[ "user" := VStr "admin" ]}; gens := []; stdout := [] |} in
  fst (with_stmt (Refs_new None) (Refs_body []) w) = Raise (KeyError "counter") ∧
  fst (try_finally_form (Refs_new None) (Refs_body []) w) = Raise (NameError "f").
Proof. by vm_compute. Qed.

(** ** Which value a handle restores *)

(** [C4] does not hold as stated: a handle built when the counter is 99, used
    for [acc(5)] and only then entered, puts back 99 on exit although the
    counter was 104 when [__enter__] ran. *)
Lemma restores_value_at_enter_fails : ¬ restores_value_at_enter.
Proof.
  intros H.
  specialize (H (Some "ref1")
                (Refs_acc (mkRefs (Some "ref1") (VInt 99)) (VInt 5))
                (λ _, ret tt)
                initial_world initial_world
                (set_G (insert "counter" (VInt 104)) initial_world)
                (set_G (insert "counter" (VInt 99))
                       (set_G (insert "counter" (VInt 104)) initial_world))
                (mkRefs (Some "ref1") (VInt 99)) (Normal tt)
                eq_refl eq_refl eq_refl).
  vm_compute in H. discriminate H.
Qed.

(** [C4] as the code has it: the value a [Refs] handle restores on release is the
    value the counter had when the handle was constructed, that is when
    [__init__] ran, whatever runs between construction and [__enter__]
    and whatever the body does; it is the value at [__enter__] exactly
    when the counter at [__enter__] is still the one at construction. *)
Theorem Refs_restores_value_at_init :
  ∀ (nm : option string) (between : M unit) (body : Refs → M unit)
    (w w0 w1 w2 : world) (r : Refs) (o : outcome unit),
    Refs_init nm w = (Normal r, w0) →
    between w0 = (Normal tt, w1) →
    with_stmt (ret (Refs_cm r)) body w1 = (o, w2) →
    _G w !! "counter" = Some (init r) ∧
    _G w2 !! "counter" = Some (init r) ∧
    (_G w2 !! "counter" = _G w1 !! "counter" ↔
     _G w1 !! "counter" = _G w !! "counter").
Proof.
  intros nm between body w w0 w1 w2 r o Hinit _ Hwith.
  assert (_G w !! "counter" = Some (init r)) as H0.
  { unfold Refs_init, bind, dict_getitem, ret in Hinit.
    destruct (_G w !! "counter") as [c|]; by simplify_eq. }
  assert (_G w2 !! "counter" = Some (init r)) as H2.
  { destruct (body r w1) as [o' w3] eqn:Hb.
    change (ret (Refs_cm r)) with (do r' <- ret r; ret (Refs_cm r')) in Hwith.
    rewrite (with_handle_run (ret r) body w1 w1 w3 r o' eq_refl Hb) in Hwith.
    simplify_eq. apply lookup_insert_eq. }
  split_and!; [done | done |]. rewrite H0, H2. split; congruence.
Qed.

Lemma Refs_restores_value_at_init_witness :
  _G (set_G (insert "counter" (VInt 99))
        (set_G (insert "counter" (VInt 104)) initial_world)) !! "counter"
  = Some (VInt 99).
Proof.
  destruct (Refs_restores_value_at_init (Some "ref1")
              (Refs_acc (mkRefs (Some "ref1") (VInt 99)) (VInt 5))
              (λ _, ret tt)
              initial_world initial_world
              (set_G (insert "counter" (VInt 104)) initial_world)
              (set_G (insert "counter" (VInt 99))
                     (set_G (insert "counter" (VInt 104)) initial_world))
              (mkRefs (Some "ref1") (VInt 99)) (Normal tt)
              eq_refl eq_refl eq_refl) as (_ & H & _).
  exact H.
Defined.

(** ** Scopes whose bodies mutate the counter *)

(** The two readings of a body are the same computation: [r.acc(n)] is
    [r._G["counter"] += n]. *)
Lemma Refs_body_ref_body (ms : list mutation) (r : Refs) (x : dict_ref) (w : world) :
  Refs_body ms r w = ref_body ms x w.
Proof.
  revert w. induction ms as [|m ms IH]; intros w; [done|].
  unfold Refs_body, ref_body in *. simpl. unfold bind.
  replace (Refs_stmt r m w) with (ref_stmt x m w) by (by destruct m).
  destruct (ref_stmt x m w) as [[[]|e] w1]; [apply IH | done].
Qed.

(** A statement of a body reads and writes [_G] only: it runs the same
    way whatever the generator frames are, and leaves them alone. *)
Lemma ref_stmt_frames (x : dict_ref) (m : mutation) (f : list frame → list frame)
    (w : world) :
  ref_stmt x m (set_gens f w)
  = (fst (ref_stmt x m w), set_gens f (snd (ref_stmt x m w))).
Proof.
  destruct m as [n|n|v|e]; simpl; try done.
  - unfold dict_iadd, bind, dict_getitem, lift, dict_setitem. simpl.
    destruct (_G w !! "counter") as [c|]; [|done].
    by destruct (py_add c n).
  - unfold dict_isub, bind, dict_getitem, lift, dict_setitem. simpl.
    destruct (_G w !! "counter") as [c|]; [|done].
    by destruct (py_sub c n).
Qed.

Lemma ref_body_frames (ms : list mutation) (x : dict_ref)
    (f : list frame → list frame) (w : world) :
  ref_body ms x (set_gens f w)
  = (fst (ref_body ms x w), set_gens f (snd (ref_body ms x w))).
Proof.
  revert w. induction ms as [|m ms IH]; intros w; [done|].
  unfold ref_body in *. simpl. unfold bind.
  rewrite ref_stmt_frames.
  destruct (ref_stmt x m w) as [[[]|e] w1]; simpl; [apply IH | done].
Qed.

Lemma ref_body_gens (ms : list mutation) (x : dict_ref) (w : world) :
  gens (snd (ref_body ms x w)) = gens w.
Proof.
  revert w. induction ms as [|m ms IH]; intros w; [done|].
  unfold ref_body in *. simpl. unfold bind.
  destruct (ref_stmt x m w) as [[[]|e] w1] eqn:Hm; simpl.
  - rewrite IH. change w1 with (snd (Normal (), w1)). rewrite <- Hm.
    destruct m as [n|n|v|e]; simpl; try done.
    + by destruct (dict_iadd_cases "counter" n w) as [[e ->]|(c & v & _ & _ & ->)].
    + by destruct (dict_isub_cases "counter" n w) as [[e ->]|(c & v & _ & _ & ->)].
  - change w1 with (snd (@Raise unit e, w1)). rewrite <- Hm.
    destruct m as [n|n|v|e']; simpl; try done.
    + by destruct (dict_iadd_cases "counter" n w) as [[e' ->]|(c & v & _ & _ & ->)].
    + by destruct (dict_isub_cases "counter" n w) as [[e' ->]|(c & v & _ & _ & ->)].
Qed.

Lemma insert_last (fs : list frame) (a b : frame) :
  <[length fs := b]> (fs ++ [a])%list = (fs ++ [b])%list.
Proof. rewrite insert_app_r_alt by lia. by rewrite Nat.sub_diag. Qed.

(** What a scope of [Refs] does, for every body. *)
Lemma with_Refs_run (nm : option string) (body : Refs → M unit) (w : world) :
  with_stmt (Refs_new nm) body w
  = match _G w !! "counter" with
    | None => (Raise (KeyError "counter"), w)
    | Some c =>
        (fst (body (mkRefs nm c) w),
         set_G (insert "counter" c) (snd (body (mkRefs nm c) w)))
    end.
Proof.
  destruct (_G w !! "counter") as [c|] eqn:Hc.
  - destruct (body (mkRefs nm c) w) as [o w3] eqn:Hb.
    by rewrite (with_Refs_new_run nm body c w w3 o Hc Hb).
  - unfold with_stmt, Refs_new, Refs_init, bind, dict_getitem. by rewrite Hc.
Qed.

(** What a scope of [ref()] does, for every body of mutations: the
    counter is put back when the body completes, and left as the body
    left it when the body raises. *)
Lemma with_ref_run (ms : list mutation) (w : world) :
  with_stmt ref_cm (ref_body ms) w
  = match _G w !! "counter" with
    | None =>
        (Raise (KeyError "counter"), set_gens (λ fs, fs ++ [Finished])%list w)
    | Some c =>
        match ref_body ms G_ref w with
        | (Normal _, w3) =>
            (Normal tt,
             set_gens (λ fs, fs ++ [Finished])%list
                      (set_G (insert "counter" c) w3))
        | (Raise e, w3) =>
            (Raise e, set_gens (λ fs, fs ++ [Finished])%list w3)
        end
    end.
Proof.
  destruct w as [d fs out].
  unfold with_stmt, ref_cm, ref_new, bind, ret. simpl.
  unfold gcm_enter, ref_next, dict_getitem. simpl.
  rewrite list_lookup_middle by done. simpl.
  destruct (d !! "counter") as [c|] eqn:Hc; simpl.
  - unfold set_frame, set_gens, set_G. simpl.
    rewrite (insert_last fs Created (Suspended c)). simpl.
    pose proof (ref_body_frames ms G_ref (λ _, fs ++ [Suspended c])%list
                  (mkWorld d fs out)) as Hf.
    unfold set_gens in Hf. simpl in Hf. rewrite Hf. clear Hf.
    pose proof (ref_body_gens ms G_ref (mkWorld d fs out)) as Hg. simpl in Hg.
    destruct (ref_body ms G_ref (mkWorld d fs out)) as [[[]|e] [d3 fs3 out3]];
      simpl in *; subst fs3.
    + unfold gcm_exit, no_exc, ref_next, dict_setitem, set_frame, set_gens, set_G.
      simpl. rewrite list_lookup_middle by done. simpl.
      by rewrite (insert_last fs (Suspended c) Finished).
    + unfold gcm_exit, exc_info, ref_throw, set_frame, set_gens. simpl.
      rewrite list_lookup_middle by done. simpl.
      rewrite (insert_last fs (Suspended c) Finished).
      destruct e; simpl; try done; by rewrite decide_True.
  - unfold set_frame, set_gens. simpl.
    by rewrite (insert_last fs Created Finished).
Qed.

(** A scope of [Refs] puts the counter back for every body whatsoever,
    whether it completes or raises. *)
Lemma Refs_scope_restores (nm : option string) (body : Refs → M unit) (w : world) :
  _G (snd (with_stmt (Refs_new nm) body w)) !! "counter" = _G w !! "counter".
Proof.
  rewrite with_Refs_run.
  destruct (_G w !! "counter") as [c|] eqn:Hc; simpl; [|done].
  apply lookup_insert_eq.
Qed.

(** A scope of [ref()] that ends normally has put the counter back. *)
Lemma ref_scope_restores_on_completion (ms : list mutation) (w : world) :
  fst (with_stmt ref_cm (ref_body ms) w) = Normal tt →
  _G (snd (with_stmt ref_cm (ref_body ms) w)) !! "counter" = _G w !! "counter".
Proof.
  rewrite with_ref_run.
  destruct (_G w !! "counter") as [c|] eqn:Hc; simpl; [|done].
  destruct (ref_body ms G_ref w) as [[[]|e] w3]; simpl; [|done].
  intros _. apply lookup_insert_eq.
Qed.

(** A scope of [ref()] whose body raises keeps whatever the body wrote. *)
Lemma ref_scope_keeps_writes_on_raise (ms : list mutation) (w w3 : world)
    (c : value) (e : exn) :
  _G w !! "counter" = Some c →
  ref_body ms G_ref w = (Raise e, w3) →
  fst (with_stmt ref_cm (ref_body ms) w) = Raise e ∧
  _G (snd (with_stmt ref_cm (ref_body ms) w)) = _G w3.
Proof. intros Hc Hb. rewrite with_ref_run, Hc, Hb. done. Qed.

(** Both guards end a scope the same way, and with the same dictionary
    whenever the body completes. *)
Lemma guards_same_outcome (nm : option string) (ms : list mutation) (w : world) :
  fst (with_stmt (Refs_new nm) (Refs_body ms) w)
  = fst (with_stmt ref_cm (ref_body ms) w).
Proof.
  rewrite with_Refs_run, with_ref_run.
  destruct (_G w !! "counter") as [c|]; [|done].
  rewrite (Refs_body_ref_body ms _ G_ref w).
  by destruct (ref_body ms G_ref w) as [[[]|e] w3].
Qed.

Lemma guards_agree_on_completion (nm : option string) (ms : list mutation) (w : world) :
  fst (with_stmt ref_cm (ref_body ms) w) = Normal tt →
  _G (snd (with_stmt (Refs_new nm) (Refs_body ms) w))
  = _G (snd (with_stmt ref_cm (ref_body ms) w)).
Proof.
  rewrite with_Refs_run, with_ref_run.
  destruct (_G w !! "counter") as [c|]; [|done].
  rewrite (Refs_body_ref_body ms _ G_ref w).
  by destruct (ref_body ms G_ref w) as [[[]|e] w3].
Qed.

(** [C1] breaks on the generator: in the scope
    [with ref() as r: r["counter"] -= 1; raise Exception("boom")],
    entered with the counter at 99, the exception leaves the statement and
    the counter stays at 98: the assignment after the [yield] never runs.
    The same body under [Refs] leaves the counter at 99. *)
Theorem ref_scope_not_restored_after_raise :
  _G initial_world !! "counter" = Some (VInt 99) ∧
  fst (with_stmt ref_cm (ref_body [Dec (VInt 1); Throw (Exception "boom")])
         initial_world) = Raise (Exception "boom") ∧
  _G (snd (with_stmt ref_cm (ref_body [Dec (VInt 1); Throw (Exception "boom")])
         initial_world)) !! "counter" = Some (VInt 98) ∧
  _G (snd (with_stmt (Refs_new (Some "ref1"))
         (Refs_body [Dec (VInt 1); Throw (Exception "boom")])
         initial_world)) !! "counter" = Some (VInt 99).
Proof.
  destruct (ref_scope_keeps_writes_on_raise
              [Dec (VInt 1); Throw (Exception "boom")] initial_world
              (set_G (insert "counter" (VInt 98)) initial_world)
              (VInt 99) (Exception "boom") eq_refl eq_refl) as [Ho HG].
  split_and!.
  - reflexivity.
  - exact Ho.
  - rewrite HG. reflexivity.
  - rewrite Refs_scope_restores. reflexivity.
Qed.

(** [C5] breaks when the body raises: with the body [dec(1); acc("x")], that is
    [r["counter"] -= 1; r["counter"] += "x"] for the generator, entered
    right after the guard is created with the counter at 99, both scopes
    end in [TypeError], but [Refs] leaves the initial dictionary while
    [ref()] leaves the counter at 98: the two final dictionaries differ. *)
Theorem guards_differ_after_raise :
  fst (with_stmt (Refs_new (Some "ref1"))
         (Refs_body [Dec (VInt 1); Acc (VStr "x")]) initial_world)
    = Raise TypeError ∧
  fst (with_stmt ref_cm (ref_body [Dec (VInt 1); Acc (VStr "x")]) initial_world)
    = Raise TypeError ∧
  _G (snd (with_stmt (Refs_new (Some "ref1"))
         (Refs_body [Dec (VInt 1); Acc (VStr "x")]) initial_world))
    = initial_G ∧
  _G (snd (with_stmt ref_cm (ref_body [Dec (VInt 1); Acc (VStr "x")])
         initial_world))
    = <["counter" := VInt 98]> initial_G ∧
  _G (snd (with_stmt (Refs_new (Some "ref1"))
         (Refs_body [Dec (VInt 1); Acc (VStr "x")]) initial_world))
    ≠ _G (snd (with_stmt ref_cm (ref_body [Dec (VInt 1); Acc (VStr "x")])
         initial_world)).
Proof.
  assert (with_stmt (Refs_new (Some "ref1"))
            (Refs_body [Dec (VInt 1); Acc (VStr "x")]) initial_world
          = (Raise TypeError, initial_world)) as HR by (by vm_compute).
  destruct (ref_scope_keeps_writes_on_raise
              [Dec (VInt 1); Acc (VStr "x")] initial_world
              (set_G (insert "counter" (VInt 98)) initial_world)
              (VInt 99) TypeError eq_refl eq_refl) as [Ho HG].
  rewrite HR, Ho, HG. simpl. split_and!; [done | done | done | done |].
  intros Heq.
  assert (initial_G !! "counter" = (<["counter" := VInt 98]> initial_G) !! "counter")
    as Hc by (by rewrite <- Heq).
  rewrite lookup_insert_eq in Hc. vm_compute in Hc. discriminate Hc.
Qed.

(** * Further properties of the notebook's code *)

(** ** Arithmetic of [acc] and [dec] *)

(** [X1] On a state whose counter is an integer, for integers [n] and
    [m] and through any two handles: two increments add up ([acc(n);
    acc(m)] is [acc(n + m)]), a decrement is an increment by the opposite
    ([dec(n)] is [acc(-n)]), and an increment and a decrement commute;
    every one of these calls returns, and the equalities are of the
    result and of the whole state. *)
Theorem acc_dec_algebra :
  ∀ (r r' : Refs) (n m z : Z) (w : world),
    _G w !! "counter" = Some (VInt z) →
    (Refs_acc r (VInt n) ;;; Refs_acc r' (VInt m)) w = Refs_acc r (VInt (n + m)) w ∧
    Refs_dec r (VInt n) w = Refs_acc r (VInt (- n)) w ∧
    (Refs_acc r (VInt n) ;;; Refs_dec r' (VInt m)) w
      = (Refs_dec r' (VInt m) ;;; Refs_acc r (VInt n)) w ∧
    Refs_acc r (VInt (n + m)) w
      = (Normal tt, set_G (insert "counter" (VInt (z + (n + m)))) w) ∧
    Refs_dec r (VInt n) w
      = (Normal tt, set_G (insert "counter" (VInt (z - n))) w) ∧
    (Refs_acc r (VInt n) ;;; Refs_dec r' (VInt m)) w
      = (Normal tt, set_G (insert "counter" (VInt (z + n - m))) w).
Proof.
  intros r r' n m z w Hc.
  unfold Refs_acc, Refs_dec, dict_iadd, dict_isub, bind, dict_getitem, lift,
    dict_setitem.
  rewrite Hc. simpl.
  rewrite !lookup_insert_eq. simpl. unfold set_G. simpl.
  rewrite !insert_insert_eq.
  replace (z + n + m) with (z + (n + m)) by lia.
  replace (z + - n) with (z - n) by lia.
  replace (z - m + n) with (z + n - m) by lia.
  done.
Qed.

Lemma acc_dec_algebra_witness :
  (Refs_acc (mkRefs (Some "ref1") (VInt 99)) (VInt 2) ;;;
   Refs_acc (mkRefs (Some "ref2") (VInt 99)) (VInt 3)) initial_world
  = Refs_acc (mkRefs (Some "ref1") (VInt 99)) (VInt (2 + 3)) initial_world.
Proof.
  destruct (acc_dec_algebra (mkRefs (Some "ref1") (VInt 99))
              (mkRefs (Some "ref2") (VInt 99)) 2 3 99 initial_world eq_refl)
    as [H _].
  exact H.
Defined.

(** ** [Refs.__str__] *)

(** [X4] The handles share one counter: on a state whose counter is an
    integer [z] and whose dictionary has no key ["name"], what one handle
    adds or takes away is what any other handle prints ([z + n] after
    [acc(n)], [z - n] after [dec(n)]), whatever value that other handle
    remembers. *)
Theorem Refs_str_sees_other_handle :
  ∀ (r1 r2 : Refs) (n z : Z) (w : world),
    _G w !! "counter" = Some (VInt z) →
    _G w !! "name" = None →
    fst ((Refs_acc r2 (VInt n) ;;; Refs_str r1) w)
      = Normal ("COUNTER #" ++ str_name (name r1) ++ ": " ++ pretty (z + n)) ∧
    fst ((Refs_dec r2 (VInt n) ;;; Refs_str r1) w)
      = Normal ("COUNTER #" ++ str_name (name r1) ++ ": " ++ pretty (z - n)).
Proof.
  intros r1 r2 n z w Hc Hn. unfold bind, Refs_acc, Refs_dec.
  rewrite (dict_iadd_int _ z n w Hc), (dict_isub_int _ z n w Hc).
  unfold Refs_str, bind, dict_getitem, ret. simpl.
  rewrite !lookup_insert_eq, !lookup_insert_ne, Hn by done. done.
Qed.

Lemma Refs_str_sees_other_handle_witness :
  fst ((Refs_acc (mkRefs (Some "ref2") (VInt 99)) (VInt 2) ;;;
        Refs_str (mkRefs (Some "ref1") (VInt 7))) initial_world)
  = Normal "COUNTER #ref1: 101".
Proof.
  destruct (Refs_str_sees_other_handle
              (mkRefs (Some "ref1") (VInt 7)) (mkRefs (Some "ref2") (VInt 99))
              2 99 initial_world eq_refl eq_refl) as [H _].
  rewrite H. reflexivity.
Defined.

(** ** Release against the mutations before it *)

Lemma Refs_stmt_writes_counter (r : Refs) (m : mutation) (w : world) :
  snd (Refs_stmt r m w) = w ∨
  ∃ v, snd (Refs_stmt r m w) = set_G (insert "counter" v) w.
Proof.
  destruct m as [n|n|v|e]; cbn [Refs_stmt]; unfold Refs_acc, Refs_dec.
  - destruct (dict_iadd_cases "counter" n w) as [[e ->]|(c & v & _ & _ & ->)];
      simpl; eauto.
  - destruct (dict_isub_cases "counter" n w) as [[e ->]|(c & v & _ & _ & ->)];
      simpl; eauto.
  - eauto.
  - eauto.
Qed.

Lemma Refs_body_writes_counter (ms : list mutation) (r : Refs) (w : world) :
  snd (Refs_body ms r w) = w ∨
  ∃ v, snd (Refs_body ms r w) = set_G (insert "counter" v) w.
Proof.
  revert w. induction ms as [|m ms IH]; intros w; [by left|].
  unfold Refs_body in *. simpl. unfold bind.
  pose proof (Refs_stmt_writes_counter r m w) as Hm.
  destruct (Refs_stmt r m w) as [[[]|e] w1]; simpl in *; [|done].
  destruct (IH w1) as [->|[v' ->]], Hm as [->|[v ->]]; eauto.
  right. exists v'. apply insert_counter_twice.
Qed.

(** [X5] A release wipes out whatever a body of counter mutations did
    before it, whichever handles the body went through and however it
    ended: the state is the one a release alone would give.  So releasing
    twice is releasing once, and of two releases the later one decides
    the counter. *)
Theorem release_discards_mutations :
  ∀ (ms : list mutation) (r r' : Refs) (args args' : list pyarg) (w : world),
    snd (Refs_exit r args (snd (Refs_body ms r' w))) = snd (Refs_exit r args w) ∧
    snd (Refs_exit r args (snd (Refs_exit r' args' w))) = snd (Refs_exit r args w).
Proof.
  intros ms r r' args args' w. rewrite !Refs_exit_eq. simpl. split.
  - destruct (Refs_body_writes_counter ms r' w) as [->|[v ->]]; [done|].
    apply insert_counter_twice.
  - apply insert_counter_twice.
Qed.

(** ** Several handles in one header *)

Lemma with_Refs_new_exact (nm : option string) (body : Refs → M unit)
    (c : value) (w : world) :
  _G w !! "counter" = Some c →
  with_stmt (Refs_new nm) body w
  = (fst (body (mkRefs nm c) w),
     set_G (insert "counter" c) (snd (body (mkRefs nm c) w))).
Proof. intros Hc. by rewrite with_Refs_run, Hc. Qed.

(** [X6] A [with] whose header builds one or more [Refs] handles gives
    every handle the same remembered value, the counter before the
    statement; it ends the way its body ends, and its final state is the
    one the body left with the counter set back to that value: nothing is
    printed or changed by the releases beyond the counter. *)
Theorem with_Refs_restores :
  ∀ (nm : option string) (names : list (option string))
    (body : list Refs → M unit) (c : value) (w : world),
    _G w !! "counter" = Some c →
    with_Refs (nm :: names) body w
    = (fst (body (map (λ nm, mkRefs nm c) (nm :: names)) w),
       set_G (insert "counter" c)
             (snd (body (map (λ nm, mkRefs nm c) (nm :: names)) w))).
Proof.
  intros nm names. revert nm.
  induction names as [|nm' names IH]; intros nm body c w Hc.
  - simpl. by rewrite (with_Refs_new_exact nm _ c w Hc).
  - change (with_Refs (nm :: nm' :: names) body w)
      with (with_stmt (Refs_new nm)
              (λ r, with_Refs (nm' :: names) (λ rs, body (r :: rs))) w).
    rewrite (with_Refs_new_exact nm _ c w Hc).
    rewrite (IH nm' (λ rs, body (mkRefs nm c :: rs)) c w Hc). simpl.
    by rewrite insert_counter_twice.
Qed.

Lemma with_Refs_restores_witness :
  _G (snd (with_Refs [Some "ref1"; Some "ref2"]
             (λ rs, match rs with
                    | [ref1; ref2] =>
                        Refs_dec ref1 (VInt 1) ;;; Refs_acc ref2 (VInt 2)
                    | _ => raise (NameError "ref1")
                    end)
             initial_world)) !! "counter"
  = Some (VInt 99).
Proof.
  rewrite (with_Refs_restores (Some "ref1") [Some "ref2"] _ (VInt 99)
             initial_world eq_refl).
  apply lookup_insert_eq.
Defined.

(** ** Acquisition without a counter *)

Lemma with_ref_no_counter (body : dict_ref → M unit) (w : world) :
  _G w !! "counter" = None →
  with_stmt ref_cm body w
  = (Raise (KeyError "counter"), set_gens (λ fs, fs ++ [Finished])%list w).
Proof.
  intros Hc. destruct w as [d fs out]. simpl in Hc.
  unfold with_stmt, ref_cm, ref_new, bind, ret. simpl.
  unfold gcm_enter, ref_next, dict_getitem. simpl.
  rewrite list_lookup_middle by done. simpl. rewrite Hc. simpl.
  unfold set_frame, set_gens. simpl. by rewrite insert_last.
Qed.

(** [X7] When the dictionary has no counter, neither guard can be
    acquired: [with Refs(...)] (alone or first of several in a header) and
    [with ref()] raise [KeyError("counter")] for every body, the body
    never runs and no release is made, so the dictionary and the printed
    lines are as before; the generator [ref()] created is left finished. *)
Theorem acquisition_needs_counter :
  ∀ (nm : option string) (names : list (option string))
    (body : Refs → M unit) (bodies : list Refs → M unit)
    (gbody : dict_ref → M unit) (w : world),
    _G w !! "counter" = None →
    with_stmt (Refs_new nm) body w = (Raise (KeyError "counter"), w) ∧
    with_Refs (nm :: names) bodies w = (Raise (KeyError "counter"), w) ∧
    with_stmt ref_cm gbody w
      = (Raise (KeyError "counter"), set_gens (λ fs, fs ++ [Finished])%list w).
Proof.
  intros nm names body bodies gbody w Hc. split_and!.
  - by rewrite with_Refs_run, Hc.
  - simpl. by rewrite with_Refs_run, Hc.
  - by apply with_ref_no_counter.
Qed.

Lemma acquisition_needs_counter_witness :
  fst (with_stmt ref_cm (ref_body [Store (VInt 1)])
         {| _G := {[ "user" := VStr "admin" ]}; gens := []; stdout := [] |})
  = Raise (KeyError "counter").
Proof.
  assert (_G {| _G := {[ "user" := VStr "admin" ]}; gens := []; stdout := [] |}
            !! "counter" = None) as Hc by (vm_compute; reflexivity).
  destruct (acquisition_needs_counter None [] (Refs_body []) (λ _, ret tt)
              (ref_body [Store (VInt 1)]) _ Hc) as (_ & _ & H).
  by rewrite H.
Defined.

(** ** The two [with] statements on any state *)

Lemma for_range_rounds (body : M unit) (ok : gmap string value → Prop) :
  (∀ d v, ok d → ok (<["counter" := v]> d)) →
  (∀ d fs out z, d !! "counter" = Some (VInt z) → ok d →
     body (mkWorld d fs out)
     = (Normal tt,
        mkWorld (<["counter" := VInt (z + 1)]> d) fs (out ++ demo_lines 1 z)%list)) →
  ∀ (n : nat) d fs out z, d !! "counter" = Some (VInt z) → ok d →
    for_range n body (mkWorld d fs out)
    = (Normal tt,
       mkWorld (<["counter" := VInt (z + Z.of_nat n)]> d) fs
               (out ++ demo_lines n z)%list).
Proof.
  intros Hok Hbody. induction n as [|n IH]; intros d fs out z Hc Hd.
  - cbn [for_range demo_lines]. unfold ret.
    rewrite Z.add_0_r, app_nil_r. by rewrite insert_id.
  - cbn [for_range]. unfold bind. rewrite (Hbody d fs out z Hc Hd).
    rewrite (IH _ fs _ (z + 1)); [|apply lookup_insert_eq|by apply Hok].
    rewrite insert_insert_eq, Nat2Z.inj_succ, <- app_assoc.
    replace (z + 1 + Z.of_nat n) with (z + Z.succ (Z.of_nat n)) by lia.
    reflexivity.
Qed.

Lemma for_range_first_raises (body : M unit) (n : nat) (e : exn) (w : world) :
  body w = (Raise e, w) →
  for_range (S n) body w = (Raise e, w).
Proof. intros Hb. cbn [for_range]. unfold bind. by rewrite Hb. Qed.

Lemma bind_normal {A B} (c : M A) (k : A → M B) (w w1 : world) (a : A) :
  c w = (Normal a, w1) → bind c k w = k a w1.
Proof. intros H. unfold bind. by rewrite H. Qed.

Lemma dict_isub_run d fs out (z n : Z) :
  d !! "counter" = Some (VInt z) →
  dict_isub "counter" (VInt n) (mkWorld d fs out)
  = (Normal tt, mkWorld (<["counter" := VInt (z - n)]> d) fs out).
Proof. intros Hc. by rewrite (dict_isub_int "counter" z n (mkWorld d fs out) Hc). Qed.

Lemma dict_iadd_run d fs out (z n : Z) :
  d !! "counter" = Some (VInt z) →
  dict_iadd "counter" (VInt n) (mkWorld d fs out)
  = (Normal tt, mkWorld (<["counter" := VInt (z + n)]> d) fs out).
Proof. intros Hc. by rewrite (dict_iadd_int "counter" z n (mkWorld d fs out) Hc). Qed.

Lemma dict_getitem_run d fs out (k : string) (v : value) :
  d !! k = Some v →
  dict_getitem k (mkWorld d fs out) = (Normal v, mkWorld d fs out).
Proof. intros Hk. unfold dict_getitem. simpl. by rewrite Hk. Qed.

Lemma Refs_str_run (r : Refs) d fs out (c : value) :
  d !! "name" = None →
  d !! "counter" = Some c →
  Refs_str r (mkWorld d fs out)
  = (Normal ("COUNTER #" ++ str_name (name r) ++ ": " ++ str_value c),
     mkWorld d fs out).
Proof.
  intros Hn Hc. unfold Refs_str, bind, dict_getitem, ret. simpl.
  by rewrite Hn, Hc.
Qed.

Lemma print_run (s : string) d fs out :
  print s (mkWorld d fs out) = (Normal tt, mkWorld d fs (out ++ [s])%list).
Proof. reflexivity. Qed.

Lemma cell3_with_round (c1 c2 : value) d fs out z :
  d !! "counter" = Some (VInt z) →
  d !! "name" = None →
  (Refs_dec (mkRefs (Some "ref1") c1) (VInt 1) ;;;
   (do s <- Refs_str (mkRefs (Some "ref1") c1); print s) ;;;
   Refs_acc (mkRefs (Some "ref2") c2) (VInt 2) ;;;
   (do s <- Refs_str (mkRefs (Some "ref2") c2); print s)) (mkWorld d fs out)
  = (Normal tt,
     mkWorld (<["counter" := VInt (z + 1)]> d) fs (out ++ demo_lines 1 z)%list).
Proof.
  intros Hc Hn. unfold Refs_dec, Refs_acc.
  erewrite bind_normal by (by apply dict_isub_run).
  erewrite bind_normal; cycle 1.
  { erewrite bind_normal; [apply print_run|].
    apply Refs_str_run; [by rewrite lookup_insert_ne | apply lookup_insert_eq]. }
  erewrite bind_normal by (apply dict_iadd_run, lookup_insert_eq).
  rewrite insert_insert_eq.
  erewrite bind_normal; cycle 1.
  { apply Refs_str_run; [by rewrite lookup_insert_ne | apply lookup_insert_eq]. }
  rewrite print_run.
  replace (z - 1 + 2) with (z + 1) by lia.
  rewrite <- app_assoc. reflexivity.
Qed.

Lemma cell4_with_round (r1 r2 : dict_ref) d fs out z :
  d !! "counter" = Some (VInt z) →
  (ref_stmt r1 (Dec (VInt 1)) ;;;
   (do c <- dict_getitem "counter"; print ("COUNTER #ref1: " ++ str_value c)) ;;;
   ref_stmt r2 (Acc (VInt 2)) ;;;
   (do c <- dict_getitem "counter"; print ("COUNTER #ref2: " ++ str_value c)))
    (mkWorld d fs out)
  = (Normal tt,
     mkWorld (<["counter" := VInt (z + 1)]> d) fs (out ++ demo_lines 1 z)%list).
Proof.
  intros Hc. cbn [ref_stmt].
  erewrite bind_normal by (by apply dict_isub_run).
  erewrite bind_normal; cycle 1.
  { erewrite bind_normal; [apply print_run|].
    apply dict_getitem_run, lookup_insert_eq. }
  erewrite bind_normal by (apply dict_iadd_run, lookup_insert_eq).
  rewrite insert_insert_eq.
  erewrite bind_normal by (apply dict_getitem_run, lookup_insert_eq).
  rewrite print_run.
  replace (z - 1 + 2) with (z + 1) by lia.
  rewrite <- app_assoc. reflexivity.
Qed.

Lemma gcm_enter_created (g : nat) (c : value) (w : world) :
  gens w !! g = Some Created →
  _G w !! "counter" = Some c →
  gcm_enter g w = (Normal G_ref, set_frame g (Suspended c) w).
Proof.
  intros Hg Hc. unfold gcm_enter, ref_next, dict_getitem. by rewrite Hg, Hc.
Qed.

Lemma gcm_exit_after_completion (g : nat) (c : value) (w : world) :
  gens w !! g = Some (Suspended c) →
  gcm_exit g no_exc w
  = (Normal false, set_frame g Finished (set_G (insert "counter" c) w)).
Proof. intros Hg. unfold gcm_exit, no_exc, ref_next. by rewrite Hg. Qed.

Lemma gcm_exit_after_raise (g : nat) (c : value) (e : exn) (w : world) :
  gens w !! g = Some (Suspended c) →
  gcm_exit g (exc_info e) w = (Normal false, set_frame g Finished w).
Proof.
  intros Hg. unfold gcm_exit, exc_info, ref_throw. rewrite Hg.
  destruct e; try reflexivity; by rewrite decide_True.
Qed.

Lemma with_ref_cm_exact (body : dict_ref → M unit) d fs out (c : value)
    (o : outcome unit) (w3 : world) :
  d !! "counter" = Some c →
  body G_ref (mkWorld d (fs ++ [Suspended c]) out) = (o, w3) →
  gens w3 !! length fs = Some (Suspended c) →
  with_stmt ref_cm body (mkWorld d fs out)
  = (o, match o with
        | Normal _ =>
            set_frame (length fs) Finished (set_G (insert "counter" c) w3)
        | Raise _ => set_frame (length fs) Finished w3
        end).
Proof.
  intros Hc Hb Hg.
  unfold with_stmt, ref_cm, ref_new, bind, ret. cbn [cm_enter cm_exit gens].
  rewrite (gcm_enter_created (length fs) c);
    [| by apply list_lookup_middle | done].
  replace (set_frame (length fs) (Suspended c)
             (set_gens (λ fs0, (fs0 ++ [Created])%list) (mkWorld d fs out)))
    with (mkWorld d (fs ++ [Suspended c]) out)
    by (unfold set_frame, set_gens; cbn [_G gens stdout]; by rewrite insert_last).
  rewrite Hb. destruct o as [[]|e].
  - by rewrite (gcm_exit_after_completion _ c w3 Hg).
  - by rewrite (gcm_exit_after_raise _ c e w3 Hg).
Qed.

Lemma with_ref_twice (body : dict_ref → dict_ref → M unit) d fs out (c : value)
    (o : outcome unit) d3 out3 :
  d !! "counter" = Some c →
  body G_ref G_ref (mkWorld d (fs ++ [Suspended c; Suspended c]) out)
  = (o, mkWorld d3 (fs ++ [Suspended c; Suspended c]) out3) →
  with_stmt ref_cm (λ r1, with_stmt ref_cm (λ r2, body r1 r2)) (mkWorld d fs out)
  = (o, mkWorld (match o with
                 | Normal _ => <["counter" := c]> d3
                 | Raise _ => d3
                 end) (fs ++ [Finished; Finished]) out3).
Proof.
  intros Hc Hb.
  assert (∀ x y : frame, ((fs ++ [x]) ++ [y] = fs ++ [x; y])%list) as Hassoc.
  { intros x y. by rewrite <- app_assoc. }
  assert (with_stmt ref_cm (λ r2, body G_ref r2)
            (mkWorld d (fs ++ [Suspended c]) out)
          = (o, mkWorld (match o with
                         | Normal _ => <["counter" := c]> d3
                         | Raise _ => d3
                         end) (fs ++ [Suspended c; Finished]) out3)) as Hin.
  { rewrite (with_ref_cm_exact _ d (fs ++ [Suspended c]) out c o
               (mkWorld d3 (fs ++ [Suspended c; Suspended c]) out3) Hc).
    - unfold set_frame, set_gens, set_G. cbn [_G gens stdout].
      rewrite <- (Hassoc (Suspended c) (Suspended c)), insert_last, Hassoc.
      by destruct o.
    - by rewrite Hassoc.
    - cbn [gens]. rewrite <- Hassoc. by rewrite list_lookup_middle. }
  rewrite (with_ref_cm_exact _ d fs out c o _ Hc Hin).
  - unfold set_frame, set_gens, set_G. cbn [_G gens stdout].
    rewrite insert_app_r_alt by lia. rewrite Nat.sub_diag. cbn [insert list_insert].
    destruct o; [by rewrite insert_insert_eq | done].
  - cbn [gens]. by rewrite (list_lookup_middle fs [Finished]).
Qed.

Lemma cell3_with_run_int (w : world) (z : Z) :
  _G w !! "counter" = Some (VInt z) →
  _G w !! "name" = None →
  cell3_with w = (Normal tt, set_stdout (λ out, out ++ demo_lines 3 z)%list w).
Proof.
  revert w.
  intros [d fs out] Hc Hn. cbn [_G] in Hc, Hn. unfold cell3_with.
  rewrite (with_Refs_new_exact (Some "ref1") _ (VInt z) (mkWorld d fs out) Hc).
  cbv beta.
  rewrite (with_Refs_new_exact (Some "ref2") _ (VInt z) (mkWorld d fs out) Hc).
  rewrite (for_range_rounds _ (λ d, d !! "name" = None)
             (λ d' v H, eq_trans (lookup_insert_ne d' "counter" "name" v ltac:(done)) H)
             (cell3_with_round (VInt z) (VInt z))
             3 d fs out z Hc Hn).
  unfold set_G, set_stdout. cbn [fst snd _G gens stdout].
  rewrite !insert_insert_eq. by rewrite insert_id.
Qed.

(** [X8] Run from any state whose counter is an integer [z] and whose
    dictionary has no key ["name"], the [with] statement of the third
    cell (lines 129 to 134) completes, prints the six lines for [z - 1],
    [z + 1], [z], [z + 2], [z + 1], [z + 3] and leaves the whole state as
    it found it but for these lines: the dictionary is back to what it
    was. *)
Theorem cell3_with_on_any_counter :
  ∀ (w : world) (z : Z),
    _G w !! "counter" = Some (VInt z) →
    _G w !! "name" = None →
    cell3_with w
    = (Normal tt,
       {| _G := _G w; gens := gens w;
          stdout := app (stdout w)
            [ "COUNTER #ref1: " ++ pretty (z - 1);
              "COUNTER #ref2: " ++ pretty (z + 1);
              "COUNTER #ref1: " ++ pretty z;
              "COUNTER #ref2: " ++ pretty (z + 2);
              "COUNTER #ref1: " ++ pretty (z + 1);
              "COUNTER #ref2: " ++ pretty (z + 3) ] |}).
Proof.
  intros w z Hc Hn. rewrite (cell3_with_run_int w z Hc Hn).
  unfold set_stdout. cbn [demo_lines].
  replace (z + 1 - 1) with z by lia.
  replace (z + 1 + 1 - 1) with (z + 1) by lia.
  replace (z + 1 + 1 + 1) with (z + 3) by lia.
  replace (z + 1 + 1) with (z + 2) by lia.
  reflexivity.
Qed.

Lemma cell3_with_on_any_counter_witness :
  stdout (snd (cell3_with initial_world)) = demo_output.
Proof.
  rewrite (cell3_with_on_any_counter initial_world 99 eq_refl eq_refl).
  reflexivity.
Defined.

Lemma cell4_with_run_int (w : world) (z : Z) :
  _G w !! "counter" = Some (VInt z) →
  cell4_with w
  = (Normal tt,
     set_gens (λ fs, fs ++ [Finished; Finished])%list
              (set_stdout (λ out, out ++ demo_lines 3 z)%list w)).
Proof.
  revert w.
  intros [d fs out] Hc. cbn [_G] in Hc. unfold cell4_with.
  rewrite (with_ref_twice
             (λ r1 r2, for_range 3 (
                ref_stmt r1 (Dec (VInt 1)) ;;;
                (do c <- dict_getitem "counter";
                 print ("COUNTER #ref1: " ++ str_value c)) ;;;
                ref_stmt r2 (Acc (VInt 2)) ;;;
                (do c <- dict_getitem "counter";
                 print ("COUNTER #ref2: " ++ str_value c))))
             d fs out (VInt z) (Normal tt)
             (<["counter" := VInt (z + Z.of_nat 3)]> d)
             (out ++ demo_lines 3 z)%list Hc).
  - unfold set_gens, set_stdout. cbn [_G gens stdout].
    rewrite insert_insert_eq. by rewrite insert_id.
  - apply (for_range_rounds _ (λ _, True)); [done | | done | done].
    intros d' fs' out' z' Hc' _. by apply cell4_with_round.
Qed.

(** [X9] Run from any state whose counter is an integer [z], the [with]
    statement of the fourth cell (lines 177 to 182) completes, prints the
    six lines for [z - 1], [z + 1], [z], [z + 2], [z + 1], [z + 3], puts
    the dictionary back to what it was, and leaves its two generators
    finished. *)
Theorem cell4_with_on_any_counter :
  ∀ (w : world) (z : Z),
    _G w !! "counter" = Some (VInt z) →
    cell4_with w
    = (Normal tt,
       {| _G := _G w; gens := (gens w ++ [Finished; Finished])%list;
          stdout := app (stdout w)
            [ "COUNTER #ref1: " ++ pretty (z - 1);
              "COUNTER #ref2: " ++ pretty (z + 1);
              "COUNTER #ref1: " ++ pretty z;
              "COUNTER #ref2: " ++ pretty (z + 2);
              "COUNTER #ref1: " ++ pretty (z + 1);
              "COUNTER #ref2: " ++ pretty (z + 3) ] |}).
Proof.
  intros w z Hc. rewrite (cell4_with_run_int w z Hc).
  unfold set_gens, set_stdout. cbn [demo_lines _G gens stdout].
  replace (z + 1 - 1) with z by lia.
  replace (z + 1 + 1 - 1) with (z + 1) by lia.
  replace (z + 1 + 1 + 1) with (z + 3) by lia.
  replace (z + 1 + 1) with (z + 2) by lia.
  reflexivity.
Qed.

Lemma cell4_with_on_any_counter_witness :
  stdout (snd (cell4_with initial_world)) = demo_output.
Proof.
  rewrite (cell4_with_on_any_counter initial_world 99 eq_refl).
  reflexivity.
Defined.

Lemma cell3_with_on_str_counter (w : world) (s : string) :
  _G w !! "counter" = Some (VStr s) →
  cell3_with w = (Raise TypeError, w).
Proof.
  intros Hc. unfold cell3_with.
  rewrite (with_Refs_new_exact (Some "ref1") _ (VStr s) w Hc). cbv beta.
  rewrite (with_Refs_new_exact (Some "ref2") _ (VStr s) w Hc).
  rewrite (for_range_first_raises _ 2 TypeError w).
  - cbn [fst snd]. rewrite insert_counter_twice. f_equal.
    apply set_G_id. by apply insert_id.
  - unfold bind, Refs_dec, dict_isub, bind, dict_getitem, lift. by rewrite Hc.
Qed.

Lemma cell4_with_on_str_counter (w : world) (s : string) :
  _G w !! "counter" = Some (VStr s) →
  cell4_with w = (Raise TypeError, set_gens (λ fs, fs ++ [Finished; Finished])%list w).
Proof.
  destruct w as [d fs out]. intros Hc. cbn [_G] in Hc. unfold cell4_with.
  rewrite (with_ref_twice
             (λ r1 r2, for_range 3 (
                ref_stmt r1 (Dec (VInt 1)) ;;;
                (do c <- dict_getitem "counter";
                 print ("COUNTER #ref1: " ++ str_value c)) ;;;
                ref_stmt r2 (Acc (VInt 2)) ;;;
                (do c <- dict_getitem "counter";
                 print ("COUNTER #ref2: " ++ str_value c))))
             d fs out (VStr s) (Raise TypeError) d out Hc); [done|].
  apply for_range_first_raises.
  unfold bind. cbn [ref_stmt]. unfold dict_isub, bind, dict_getitem, lift.
  cbn [_G]. by rewrite Hc.
Qed.

(** [X10] The [with] statement of the third cell and the [with]
    statement of the fourth are the same demonstration: run from any
    state whose dictionary has no key ["name"], they end the same way
    (both complete, or both raise the same exception: [KeyError] without
    a counter, [TypeError] on a counter that is a string), print the same
    lines and leave the same dictionary. *)
Theorem cell_with_statements_agree :
  ∀ w : world,
    _G w !! "name" = None →
    fst (cell3_with w) = fst (cell4_with w) ∧
    stdout (snd (cell3_with w)) = stdout (snd (cell4_with w)) ∧
    _G (snd (cell3_with w)) = _G (snd (cell4_with w)).
Proof.
  intros w Hn. destruct (_G w !! "counter") as [[z|s]|] eqn:Hc.
  - by rewrite (cell3_with_run_int w z Hc Hn), (cell4_with_run_int w z Hc).
  - by rewrite (cell3_with_on_str_counter w s Hc), (cell4_with_on_str_counter w s Hc).
  - unfold cell3_with, cell4_with.
    by rewrite with_Refs_run, Hc, (with_ref_no_counter _ w Hc).
Qed.

Lemma cell_with_statements_agree_witness :
  stdout (snd (cell3_with initial_world)) = stdout (snd (cell4_with initial_world)).
Proof.
  destruct (cell_with_statements_agree initial_world) as (_ & H & _); [reflexivity|].
  exact H.
Defined.

(** ** The scope of [ref()] and its generator *)

(** [X11] Whatever body of counter mutations it guards, and whether the
    body completes or raises, a [with ref()] leaves its generator
    finished, prints nothing, touches no entry of the dictionary but the
    counter, and never swallows an exception: with a counter in place it
    ends the way its body ends. *)
Theorem ref_scope_always_finishes :
  ∀ (ms : list mutation) (w : world),
    gens (snd (with_stmt ref_cm (ref_body ms) w)) = (gens w ++ [Finished])%list ∧
    stdout (snd (with_stmt ref_cm (ref_body ms) w)) = stdout w ∧
    counter_only w (snd (with_stmt ref_cm (ref_body ms) w)) ∧
    fst (with_stmt ref_cm (ref_body ms) w)
    = match _G w !! "counter" with
      | None => Raise (KeyError "counter")
      | Some _ => fst (ref_body ms G_ref w)
      end.
Proof.
  intros ms w. rewrite with_ref_run.
  destruct (_G w !! "counter") as [c|] eqn:Hc.
  - pose proof (Refs_body_writes_counter ms (mkRefs None c) w) as Hw.
    rewrite (Refs_body_ref_body ms _ G_ref w) in Hw.
    destruct (ref_body ms G_ref w) as [[[]|e] w3]; cbn [fst snd] in *;
      destruct Hw as [->|[v ->]]; split_and!; try done;
      rewrite ?insert_counter_twice;
      try (apply counter_only_gens, counter_only_insert);
      apply counter_only_gens, counter_only_refl.
  - split_and!; try done; apply counter_only_gens, counter_only_refl.
Qed.

(** ** Sessions *)

Lemma counter_only_trans (w1 w2 w3 : world) :
  counter_only w1 w2 → counter_only w2 w3 → counter_only w1 w3.
Proof. intros [H1 H2] [H3 H4]. split; congruence. Qed.

Lemma exec_op_counter_only (o : op) (s : session) :
  counter_only (now s) (now (exec_op o s)) ∧
  ∃ new, refs (exec_op o s) = (refs s ++ new)%list.
Proof.
  destruct o as [nm|i|i args|i n|i n| |g|g args]; cbn [exec_op];
    unfold on_handle.
  - pose proof (Refs_init_pure nm (now s)) as Hp.
    destruct (Refs_init nm (now s)) as [[r|e] w']; cbn [snd] in Hp; subst w';
      cbn [now refs]; (split; [apply counter_only_refl|]).
    + by exists [r].
    + exists []. by rewrite app_nil_r.
  - destruct (refs s !! i); cbn [now refs];
      (split; [apply counter_only_refl | exists []; by rewrite app_nil_r]).
  - destruct (refs s !! i); cbn [now refs];
      (split; [| exists []; by rewrite app_nil_r]).
    + rewrite Refs_exit_eq. apply counter_only_insert.
    + apply counter_only_refl.
  - destruct (refs s !! i); cbn [now refs];
      (split; [| exists []; by rewrite app_nil_r]).
    + apply dict_iadd_counter_only.
    + apply counter_only_refl.
  - destruct (refs s !! i); cbn [now refs];
      (split; [| exists []; by rewrite app_nil_r]).
    + apply dict_isub_counter_only.
    + apply counter_only_refl.
  - cbn [now refs]. split; [| exists []; by rewrite app_nil_r].
    apply counter_only_gens, counter_only_refl.
  - cbn [now refs]. split; [| exists []; by rewrite app_nil_r].
    rewrite gcm_enter_snd. apply ref_next_counter_only.
  - cbn [now refs]. split; [| exists []; by rewrite app_nil_r].
    destruct (gcm_exit_snd g args (now s)) as [->|[->|[e ->]]].
    + apply counter_only_refl.
    + apply ref_next_counter_only.
    + apply ref_throw_counter_only.
Qed.

(** [X12] Over a whole session, from any state and handles: whatever
    sequence of constructions, enters, exits, [acc], [dec] and generator
    manager steps is run, every entry of the dictionary other than the
    counter is the same at the end as at the start, the owner included,
    and the handles created earlier are all still there, unchanged and in
    the same order. *)
Theorem session_touches_counter_only :
  ∀ (ops : list op) (s : session),
    counter_only (now s) (now (run ops s)) ∧
    ∃ new, refs (run ops s) = (refs s ++ new)%list.
Proof.
  induction ops as [|o ops IH]; intros s.
  - split; [apply counter_only_refl | exists []; by rewrite app_nil_r].
  - cbn [run fold_left].
    destruct (exec_op_counter_only o s) as [H1 [new1 Hr1]].
    destruct (IH (exec_op o s)) as [H2 [new2 Hr2]].
    split; [by eapply counter_only_trans|].
    exists (new1 ++ new2)%list. unfold run in Hr2.
    by rewrite Hr2, Hr1, app_assoc.
Qed.

(** ** What the two guards do guarantee *)

(** [X13] When the body of counter mutations completes, the two guards
    are interchangeable: [with ref()] has put the counter back to its
    value before the statement, and [with Refs(name)] run from the same
    state ends the same way with the same dictionary. *)
Theorem guards_agree_when_body_completes :
  ∀ (nm : option string) (ms : list mutation) (w : world),
    fst (ref_body ms G_ref w) = Normal tt →
    _G (snd (with_stmt ref_cm (ref_body ms) w)) !! "counter" = _G w !! "counter" ∧
    fst (with_stmt (Refs_new nm) (Refs_body ms) w)
      = fst (with_stmt ref_cm (ref_body ms) w) ∧
    _G (snd (with_stmt (Refs_new nm) (Refs_body ms) w))
      = _G (snd (with_stmt ref_cm (ref_body ms) w)).
Proof.
  intros nm ms w Hb. rewrite with_Refs_run, with_ref_run.
  destruct (_G w !! "counter") as [c|] eqn:Hc; [|done].
  rewrite (Refs_body_ref_body ms _ G_ref w).
  destruct (ref_body ms G_ref w) as [[[]|e] w3]; [|done].
  cbn [fst snd _G set_gens set_G]. split_and!; try done. apply lookup_insert_eq.
Qed.

Lemma guards_agree_when_body_completes_witness :
  _G (snd (with_stmt ref_cm (ref_body [Dec (VInt 1); Acc (VInt 2)]) initial_world))
    !! "counter"
  = _G initial_world !! "counter".
Proof.
  destruct (guards_agree_when_body_completes None [Dec (VInt 1); Acc (VInt 2)]
              initial_world eq_refl) as [H _].
  exact H.
Defined.
